(** * genie-wrapper: the orchestration layer around the Genie tool

    A shallow embedding of [genie_wrapper/api.py] and
    [genie_wrapper/core/docker_runner.py].  The wrapper has three kinds of
    effect: it resolves paths against the file system, it creates the output
    directory, and it runs one external process.  These are modelled by an
    environment (what the file system and the process answer) and by a trace
    of the events a call performs, in the order it performs them. *)

From Stdlib Require Import ZArith Ascii String List.
From stdpp Require Import base decidable option list strings sets gmap.

Open Scope string_scope.
Open Scope list_scope.

(* ===================================================================== *)
(** ** Strings *)
(* ===================================================================== *)

Module Str.

(** The line feed written [\n] in the Python literals. *)
Definition nl : string := String (ascii_of_nat 10) EmptyString.

(** [needle] is an initial segment of [s]. *)
Fixpoint starts_with (needle s : string) : bool :=
  match needle, s with
  | EmptyString, _ => true
  | String a n', String b s' => if decide (a = b) then starts_with n' s' else false
  | String _ _, EmptyString => false
  end.

(** Python's [needle in s] on [str]. *)
Fixpoint contains (needle s : string) : bool :=
  starts_with needle s ||
  match s with
  | EmptyString => false
  | String _ s' => contains needle s'
  end.

(** Python's truth value of a [str]: every string but the empty one. *)
Definition truthy (s : string) : bool :=
  match s with EmptyString => false | String _ _ => true end.

(** [sep.join(l)]. *)
Fixpoint join (sep : string) (l : list string) : string :=
  match l with
  | [] => ""
  | [x] => x
  | x :: l' => x +:+ sep +:+ join sep l'
  end.

(** [s.split("/")], the pieces between the slashes. *)
Fixpoint split_slash (s : string) : list string :=
  match s with
  | EmptyString => [""]
  | String c s' =>
      if decide (c = "/"%char) then "" :: split_slash s'
      else match split_slash s' with
           | [] => [String c ""]
           | x :: l => String c x :: l
           end
  end.

(** A [string] holds a Python [str] as the bytes of its UTF-8 encoding.
    [bytes] writes one down from the values of its bytes. *)
Definition bytes (l : list N) : string :=
  fold_right (λ b s, String (ascii_of_N b) s) EmptyString l.

(** The characters [str.strip()] removes, the ones for which
    [str.isspace()] holds, each as its UTF-8 encoding:
    U+0009 to U+000D, U+001C to U+0020, U+0085, U+00A0, U+1680,
    U+2000 to U+200A, U+2028, U+2029, U+202F, U+205F and U+3000. *)
Definition white_space : list string :=
  Eval cbv in
    ((λ b : N, bytes [b]) <$> [9; 10; 11; 12; 13; 28; 29; 30; 31; 32]%N)
    ++ [bytes [194; 133]%N; bytes [194; 160]%N; bytes [225; 154; 128]%N]
    ++ ((λ b : N, bytes [226; 128; b]%N)
          <$> [128; 129; 130; 131; 132; 133; 134; 135; 136; 137; 138;
               168; 169; 175]%N)
    ++ [bytes [226; 129; 159]%N; bytes [227; 128; 128]%N].

(** [w] is the encoding of one white-space character. *)
Definition is_white (w : string) : bool := existsb (String.eqb w) white_space.

(** [s.lstrip()]: an encoding is one, two or three bytes long. *)
Fixpoint lstrip (s : string) : string :=
  match s with
  | EmptyString => EmptyString
  | String c1 s1 =>
      if is_white (String c1 EmptyString) then lstrip s1
      else
        match s1 with
        | EmptyString => s
        | String c2 s2 =>
            if is_white (String c1 (String c2 EmptyString)) then lstrip s2
            else
              match s2 with
              | EmptyString => s
              | String c3 s3 =>
                  if is_white (String c1 (String c2 (String c3 EmptyString)))
                  then lstrip s3
                  else s
              end
        end
  end.

(** [s.rstrip()]: once the rest is stripped, the first byte goes too when
    what is left with it is one white-space character. *)
Fixpoint rstrip (s : string) : string :=
  match s with
  | EmptyString => EmptyString
  | String c s' =>
      let t := rstrip s' in
      if is_white (String c t) then EmptyString else String c t
  end.

(** [s.strip()]. *)
Definition strip (s : string) : string := rstrip (lstrip s).

(** [s] begins with a white-space character. *)
Definition starts_white (s : string) : bool :=
  match s with
  | EmptyString => false
  | String c1 s1 =>
      is_white (String c1 EmptyString)
      || match s1 with
         | EmptyString => false
         | String c2 s2 =>
             is_white (String c1 (String c2 EmptyString))
             || match s2 with
                | EmptyString => false
                | String c3 _ =>
                    is_white (String c1 (String c2 (String c3 EmptyString)))
                end
         end
  end.

(** [a] is white space only: white-space characters one after the other. *)
Inductive all_white : string → Prop :=
| all_white_nil : all_white EmptyString
| all_white_app w a : In w white_space → all_white a → all_white (w +:+ a).

(** The declarative reading of [contains]: [needle] occurs somewhere in [s]. *)
Definition occurs_in (needle s : string) : Prop :=
  ∃ before after, s = before +:+ needle +:+ after.

End Str.

(* ===================================================================== *)
(** ** Paths: [pathlib.PurePosixPath] after [resolve()] *)
(* ===================================================================== *)

(** A resolved path is absolute; it is kept as the list of its components
    below the root, so the root itself is the empty list. *)
Abbreviation Path := (list string).

Module PurePath.

(** [p.parent]; the parent of the root is the root. *)
Definition parent (p : Path) : Path := removelast p.

(** [p.name]; the name of the root is the empty string. *)
Definition name (p : Path) : string := List.last p "".

(** [str(p)]. *)
Definition str (p : Path) : string := "/" +:+ Str.join "/" p.

End PurePath.

(* ===================================================================== *)
(** ** Exceptions, events and the monad of a call *)
(* ===================================================================== *)

Inductive exn : Type :=
| ValueError (msg : string)
| RuntimeError (msg : string)
| IndexError (msg : string)
| KeyError (msg : string)
| TypeError (msg : string)
| OSError (msg : string)
| CalledProcessError (returncode : Z) (stdout stderr : string).

(** A method call on the native backend, whose class is not part of these
    sources: the call is all the wrapper can observe of it. *)
Inductive backend_call : Type :=
| CallCompress (input_file output_file : string)
               (reference : option string) (low_latency : bool)
| CallDecompress (input_file output_file : string) (reference : option string).

Inductive event : Type :=
| EvMkdir (dir : Path)               (* Path.mkdir(parents=True, exist_ok=True) *)
| EvRun (cmd : list string)          (* subprocess.run(cmd, ...) *)
| EvPrint (line : string)            (* print(...), without the final line feed *)
| EvBackend (call : backend_call).   (* a method of the native backend entered *)

(** A computation returns its trace and either the exception it raised or
    its value. *)
Definition M (A : Type) : Type := (list event * (exn + A))%type.

Definition ret {A} (a : A) : M A := ([], inr a).
Definition raise {A} (e : exn) : M A := ([], inl e).
Definition emit (ev : event) : M () := ([ev], inr ()).

Definition bind {A B} (m : M A) (k : A → M B) : M B :=
  match m with
  | (t, inl e) => (t, inl e)
  | (t, inr a) => let '(t', r) := k a in (t ++ t', r)
  end.

(** [try: m except <those e with handler e = Some _>: handler e]. *)
Definition try_except {A} (m : M A) (handler : exn → option (M A)) : M A :=
  match m with
  | (t, inl e) =>
      match handler e with
      | Some h => let '(t', r) := h in (t ++ t', r)
      | None => (t, inl e)
      end
  | (t, inr a) => (t, inr a)
  end.

Notation "x <-- m ;; k" := (bind m (fun x => k))
  (at level 100, m at next level, right associativity).
Notation "m ;;; k" := (bind m (fun _ => k))
  (at level 100, right associativity).

Definition trace {A} (m : M A) : list event := fst m.
Definition outcome {A} (m : M A) : exn + A := snd m.

(** [for x in l: f(x)], collecting the values, stopping at the first raise. *)
Fixpoint mapM {A B} (f : A → M B) (l : list A) : M (list B) :=
  match l with
  | [] => ret []
  | x :: l' => y <-- f x ;; ys <-- mapM f l' ;; ret (y :: ys)
  end.

(** [l[i]] on a Python list. *)
Definition list_index {A} (l : list A) (i : nat) : M A :=
  match l !! i with
  | Some x => ret x
  | None => raise (IndexError "list index out of range")
  end.

(** [print(a, b)]: the arguments separated by one space. *)
Definition print (args : list string) : M () :=
  emit (EvPrint (Str.join " " args)).

(* ===================================================================== *)
(** ** The environment of a call *)
(* ===================================================================== *)

(** What an external process leaves behind when it was started and exited. *)
Record CompletedProcess : Type := {
  returncode : Z;
  stdout : string;
  stderr : string;
}.

Record Env : Type := {
  (** [Path(p).resolve()]: the absolute path, or what [resolve] raised. *)
  fs_resolve : string → exn + Path;
  (** [dir.mkdir(parents=True, exist_ok=True)]: [None] when it succeeds. *)
  fs_mkdir : Path → option exn;
  (** Starting [cmd] and waiting for it: what it left, or why it did not start. *)
  proc_run : list string → exn + CompletedProcess;
}.

(** Python's truth value of an argument that is a [str] or [None]. *)
Definition py_truthy (p : option string) : bool :=
  match p with
  | None => false
  | Some s => Str.truthy s
  end.

(** A keyword argument with a default: left out by the caller, or passed. *)
Inductive kwarg (A : Type) : Type :=
| Omitted
| Passed (a : A).
Arguments Omitted {A}.
Arguments Passed {A} a.

Definition kwarg_value {A} (default : A) (k : kwarg A) : A :=
  match k with
  | Omitted => default
  | Passed a => a
  end.

(** The capability both backends offer: [compress] and [decompress]. *)
Record GenieRunner : Type := {
  runner_compress : string → string → option string → bool → M string;
  runner_decompress : string → string → option string → M string;
}.

(* ===================================================================== *)
(** ** [genie_wrapper/core/docker_runner.py] *)
(* ===================================================================== *)

Module docker_runner.

Record DockerGenieRunner : Type := { image : string }.

(** [DockerGenieRunner(image="muefab/genie:latest")]. *)
Definition __init__ (image : kwarg string) : DockerGenieRunner :=
  {| image := kwarg_value "muefab/genie:latest" image |}.

Definition layout_message : string :=
  "All files must be in the same directory for Docker binding.".

Definition failure_message (captured_stderr : string) : string :=
  "Genie Docker failed:" +:+ Str.nl +:+ captured_stderr.

Section WithEnv.

Variable env : Env.

(** [subprocess.run(cmd, capture_output=True, text=True, check=check)]. *)
Definition subprocess_run (cmd : list string) (check : bool)
  : M CompletedProcess :=
  emit (EvRun cmd) ;;;
  match proc_run env cmd with
  | inl e => raise e
  | inr result =>
      if check && negb (bool_decide (returncode result = 0%Z))
      then raise (CalledProcessError (returncode result)
                                     (stdout result) (stderr result))
      else ret result
  end.

(** [Path(p).resolve()]; [Path(None)] is a [TypeError]. *)
Definition resolve (p : option string) : M Path :=
  match p with
  | None => raise (TypeError "expected str, bytes or os.PathLike object, not NoneType")
  | Some s =>
      match fs_resolve env s with
      | inl e => raise e
      | inr r => ret r
      end
  end.

(** [dir.mkdir(parents=True, exist_ok=True)]. *)
Definition mkdir (dir : Path) : M () :=
  emit (EvMkdir dir) ;;;
  match fs_mkdir env dir with
  | Some e => raise e
  | None => ret ()
  end.

(** [s.pop()] on a set: some element of it, [KeyError] when it is empty. *)
Definition set_pop (s : gset Path) : M Path :=
  match elements s with
  | d :: _ => ret d
  | [] => raise (KeyError "pop from an empty set")
  end.

Definition _run_command (self : DockerGenieRunner) (cmd : list string)
  : M string :=
  try_except
    (result <-- subprocess_run cmd true ;;
     if Str.truthy (stderr result) && Str.contains "ERROR" (stderr result)
     then
       print ["[Genie Docker] Error:"; stderr result] ;;;
       raise (RuntimeError (failure_message (stderr result)))
     else
       print ["[Genie Docker] Output:"; stdout result] ;;;
       ret (stdout result))
    (fun e =>
       match e with
       | CalledProcessError _ _ e_stderr =>
           Some (print ["[Genie Docker] Error:"; e_stderr] ;;;
                 raise (RuntimeError (failure_message e_stderr)))
       | _ => None
       end).

Definition _resolve_paths (self : DockerGenieRunner)
    (paths : list (option string)) : M (list Path * Path) :=
  resolved <-- mapM resolve (List.filter py_truthy paths) ;;
  let parent_dirs : gset Path := list_to_set (PurePath.parent <$> resolved) in
  if bool_decide (size parent_dirs ≠ 1%nat)
  then raise (ValueError layout_message)
  else bind_dir <-- set_pop parent_dirs ;; ret (resolved, bind_dir).

Definition compress (self : DockerGenieRunner)
    (input_file output_file : string) (reference : option string)
    (low_latency : bool) : M string :=
  pb <-- _resolve_paths self [Some input_file; Some output_file; reference] ;;
  let '(paths, bind_dir) := pb in
  input_path <-- list_index paths 0 ;;
  output_path <-- list_index paths 1 ;;
  ref_path <-- (if py_truthy reference
                then r <-- list_index paths 2 ;; ret (Some r)
                else ret None) ;;
  mkdir (PurePath.parent output_path) ;;;
  let cmd :=
    [ "docker"; "run"; "--rm";
      "-v"; PurePath.str bind_dir +:+ ":/work";
      image self;
      "run";
      "-i"; "/work/" +:+ PurePath.name input_path;
      "-o"; "/work/" +:+ PurePath.name output_path;
      "--qv"; "none";
      "-f" ] in
  let cmd := if low_latency then cmd ++ ["--low-latency"] else cmd in
  (* a [Path] object is always true: only [None] skips the extension *)
  let cmd := match ref_path with
             | Some r => cmd ++ ["-r"; "/work/" +:+ PurePath.name r]
             | None => cmd
             end in
  _run_command self cmd.

Definition decompress (self : DockerGenieRunner)
    (input_file output_file : string) (reference : option string)
  : M string :=
  pb <-- _resolve_paths self [Some input_file; Some output_file; reference] ;;
  let '(paths, bind_dir) := pb in
  input_path <-- list_index paths 0 ;;
  output_path <-- list_index paths 1 ;;
  ref_path <-- (if py_truthy reference
                then r <-- list_index paths 2 ;; ret (Some r)
                else ret None) ;;
  mkdir (PurePath.parent output_path) ;;;
  let cmd :=
    [ "docker"; "run"; "--rm";
      "-v"; PurePath.str bind_dir +:+ ":/work";
      image self;
      "run";
      "-i"; "/work/" +:+ PurePath.name input_path;
      "-o"; "/work/" +:+ PurePath.name output_path;
      "-f" ] in
  let cmd := match ref_path with
             | Some r => cmd ++ ["-r"; "/work/" +:+ PurePath.name r]
             | None => cmd
             end in
  _run_command self cmd.

Definition version (self : DockerGenieRunner) : M string :=
  let cmd := ["docker"; "run"; "--rm"; image self; "help"] in
  out <-- _run_command self cmd ;;
  ret (Str.strip out).

(** The docker backend seen through the common capability. *)
Definition as_runner (self : DockerGenieRunner) : GenieRunner :=
  {| runner_compress := compress self;
     runner_decompress := decompress self |}.

End WithEnv.

End docker_runner.

(* ===================================================================== *)
(** ** [genie_wrapper/api.py] *)
(* ===================================================================== *)

Module api.

Definition DEFAULT_MODE : string := "docker".

Definition unknown_mode_message (mode : string) : string :=
  "Unknown mode '" +:+ mode +:+ "'. Must be 'native' or 'docker'.".

Section WithBackends.

Variable env : Env.

(** [NativeGenieRunner()]: the class lives in [core/native_runner.py],
    which is not among these sources, so building one is left open. *)
Variable NativeGenieRunner : M GenieRunner.

(** [DockerGenieRunner()]. *)
Definition DockerGenieRunner : M GenieRunner :=
  ret (docker_runner.as_runner env (docker_runner.__init__ Omitted)).

Definition _get_runner (mode : string) : M GenieRunner :=
  if decide (mode = "native") then NativeGenieRunner
  else if decide (mode = "docker") then DockerGenieRunner
  else raise (ValueError (unknown_mode_message mode)).

Definition compress (input_path output_path : string)
    (reference_path : option string) (mode : kwarg string)
    (low_latency : kwarg bool) : M string :=
  runner <-- _get_runner (kwarg_value DEFAULT_MODE mode) ;;
  runner_compress runner input_path output_path reference_path
                  (kwarg_value false low_latency).

Definition decompress (input_path output_path : string)
    (reference_path : option string) (mode : kwarg string) : M string :=
  runner <-- _get_runner (kwarg_value DEFAULT_MODE mode) ;;
  runner_decompress runner input_path output_path reference_path.

End WithBackends.

End api.

(* ===================================================================== *)
(** ** Sample environments *)
(* ===================================================================== *)

Module Sample.

Definition lexical_step (acc : Path) (c : string) : Path :=
  if decide (c = "") then acc
  else if decide (c = ".") then acc
  else if decide (c = "..") then removelast acc
  else acc ++ [c].

(** [resolve()] on a file system without symbolic links, from directory
    [cwd]. *)
Definition lexical_resolve (cwd : Path) (p : string) : Path :=
  fold_left lexical_step (Str.split_slash p)
            (if Str.starts_with "/" p then [] else cwd).

(** Every path resolves, every directory can be made, and the process
    always leaves [result]. *)
Definition env (cwd : Path) (result : CompletedProcess) : Env :=
  {| fs_resolve p := inr (lexical_resolve cwd p);
     fs_mkdir _ := None;
     proc_run _ := inr result |}.

Definition home : Path := ["home"; "user"].

Definition quiet : CompletedProcess :=
  {| returncode := 0%Z; stdout := "done"; stderr := "" |}.

(** The tool's known quirk: exit status zero, the failure only in the
    error stream. *)
Definition failed_quietly : CompletedProcess :=
  {| returncode := 0%Z;
     stdout := "";
     stderr := "ERROR: Input file does not exist" |}.

Definition quiet_env : Env := env home quiet.

(** [DockerGenieRunner()]. *)
Definition runner : docker_runner.DockerGenieRunner :=
  docker_runner.__init__ Omitted.

(** The help text of the tool, as a process leaves it. *)
Definition helped : CompletedProcess :=
  {| returncode := 0%Z;
     stdout := Str.nl +:+ Str.bytes [226; 128; 131]%N
               +:+ "  Usage: genie <operation>  "
               +:+ Str.bytes [227; 128; 128]%N +:+ Str.nl;
     stderr := "" |}.

(** A machine without [docker]: no process can be started. *)
Definition no_docker_env : Env :=
  {| fs_resolve p := inr (lexical_resolve home p);
     fs_mkdir _ := None;
     proc_run _ := inl (OSError "[Errno 2] No such file or directory: 'docker'") |}.

(** A file system on which no directory can be made. *)
Definition read_only_env : Env :=
  {| fs_resolve p := inr (lexical_resolve home p);
     fs_mkdir _ := Some (OSError "[Errno 30] Read-only file system");
     proc_run _ := inr quiet |}.

(** A file system on which the path [loop/out.mgb] does not resolve. *)
Definition loop_env : Env :=
  {| fs_resolve p :=
       if decide (p = "loop/out.mgb")
       then inl (OSError "[Errno 40] Too many levels of symbolic links")
       else inr (lexical_resolve home p);
     fs_mkdir _ := None;
     proc_run _ := inr quiet |}.

(** A backend that records the call it receives and answers [reply]. *)
Definition recording_backend (reply : backend_call → exn + string)
  : GenieRunner :=
  {| runner_compress i o r ll :=
       emit (EvBackend (CallCompress i o r ll)) ;;;
       ([], reply (CallCompress i o r ll)) ;
     runner_decompress i o r :=
       emit (EvBackend (CallDecompress i o r)) ;;;
       ([], reply (CallDecompress i o r)) |}.

Definition native : M GenieRunner := ret (recording_backend (λ _, inr "ok")).

End Sample.


(* ===================================================================== *)
(** ** The vocabulary of the specification *)
(* ===================================================================== *)

Import docker_runner.

(** The failure policy in the words of the specification: the process
    exited with a status other than zero, or its error stream mentions
    [ERROR]. *)
Definition reports_failure (result : CompletedProcess) : Prop :=
  returncode result ≠ 0%Z ∨ Str.occurs_in "ERROR" (stderr result).

(** The paths a call provides: the caller's non-empty strings, in the order
    input, output, reference.  [None] and the empty string both fail
    Python's truth test and are left out. *)
Definition provided (input_file output_file : string)
    (reference : option string) : list string :=
  List.filter Str.truthy (input_file :: output_file :: option_list reference).

(** [ps] are the resolved absolute forms of the strings [l]. *)
Definition resolved_forms (env : Env) (l : list string) (ps : list Path) : Prop :=
  Forall2 (λ s p, fs_resolve env s = inr p) l ps.

(** All of [ps] lie in one directory, [d]. *)
Definition all_in (d : Path) (ps : list Path) : Prop :=
  ps ≠ [] ∧ ∀ p, In p ps → PurePath.parent p = d.

(** The paths share exactly one parent directory. *)
Definition share_one_parent (ps : list Path) : Prop := ∃ d, all_in d ps.

(** [{p.parent for p in resolved}]. *)
Definition parent_dirs (ps : list Path) : gset Path :=
  list_to_set (PurePath.parent <$> ps).

(** How the reference argument of a call relates to the resolved reference
    path [pref] of its command: a non-empty string resolves to it; [None]
    and the empty string give none. *)
Definition reference_form (env : Env) (reference : option string)
    (pref : option Path) : Prop :=
  match pref with
  | Some pr => ∃ s, reference = Some s ∧ s ≠ "" ∧ fs_resolve env s = inr pr
  | None => reference = None ∨ reference = Some ""
  end.

(** The call passed path validation: input and output are non-empty and
    resolve to [pin] and [pout], the reference to [pref], and all of them
    lie in the directory [d]. *)
Definition validated (env : Env) (i o : string) (r : option string)
    (pin pout : Path) (pref : option Path) (d : Path) : Prop :=
  (i ≠ "" ∧ fs_resolve env i = inr pin)
  ∧ (o ≠ "" ∧ fs_resolve env o = inr pout)
  ∧ reference_form env r pref
  ∧ all_in d (pin :: pout :: option_list pref).

(** The word [a] immediately followed by the word [b]. *)
Definition followed_by (a b : string) (l : list string) : Prop :=
  ∃ l1 l2, l = l1 ++ a :: b :: l2.

(** The words in front of the tool's own arguments: the container run with
    its one bind mount, and the image. *)
Definition container_words (self : DockerGenieRunner) (d : Path) : list string :=
  ["docker"; "run"; "--rm"; "-v"; PurePath.str d +:+ ":/work"; image self].

(** The words that name the input and the output inside the container. *)
Definition file_words (pin pout : Path) : list string :=
  ["run"; "-i"; "/work/" +:+ PurePath.name pin;
          "-o"; "/work/" +:+ PurePath.name pout].

Definition reference_words (pref : option Path) : list string :=
  match pref with
  | Some pr => ["-r"; "/work/" +:+ PurePath.name pr]
  | None => []
  end.

(** The strings among the arguments of [_resolve_paths] that pass Python's
    truth test, in their order. *)
Definition truthy_strings (paths : list (option string)) : list string :=
  omap (λ p, if py_truthy p then p else None) paths.

(** The words of the command of a validated [compress] call. *)
Definition compress_words (self : DockerGenieRunner) (d pin pout : Path)
    (low_latency : bool) (pref : option Path) : list string :=
  container_words self d ++ file_words pin pout
  ++ ["--qv"; "none"; "-f"]
  ++ (if low_latency then ["--low-latency"] else [])
  ++ reference_words pref.

(** The words of the command of a validated [decompress] call. *)
Definition decompress_words (self : DockerGenieRunner) (d pin pout : Path)
    (pref : option Path) : list string :=
  container_words self d ++ file_words pin pout ++ ["-f"] ++ reference_words pref.

(** The failure test of [_run_command] on a process that exited. *)
Definition failed (result : CompletedProcess) : bool :=
  negb (bool_decide (returncode result = 0%Z))
  || Str.contains "ERROR" (stderr result).

(** The line [_run_command] prints and what it returns or raises for a
    process that exited. *)
Definition report_line (result : CompletedProcess) : string :=
  if failed result
  then "[Genie Docker] Error: " +:+ stderr result
  else "[Genie Docker] Output: " +:+ stdout result.

Definition report_outcome (result : CompletedProcess) : exn + string :=
  if failed result
  then inl (RuntimeError ("Genie Docker failed:" +:+ Str.nl +:+ stderr result))
  else inr (stdout result).

(** An exception other than [CalledProcessError]. *)
Definition not_called_process_error (e : exn) : Prop :=
  match e with
  | CalledProcessError _ _ _ => False
  | _ => True
  end.

(* ===================================================================== *)
(** ** Laws of the monad *)
(* ===================================================================== *)

Lemma bind_ret_l {A B} (a : A) (k : A → M B) : bind (ret a) k = k a.
Proof. unfold bind, ret. destruct (k a) as [t r]. reflexivity. Qed.

Lemma trace_bind {A B} (m : M A) (k : A → M B) :
  trace (bind m k) =
  trace m ++ match outcome m with inl _ => [] | inr a => trace (k a) end.
Proof.
  destruct m as [t [e|a]]; simpl.
  - now rewrite app_nil_r.
  - destruct (k a) as [t' r]. reflexivity.
Qed.

(* ===================================================================== *)
(** ** Facts about strings *)
(* ===================================================================== *)

Lemma append_nil (s : string) : "" +:+ s = s.
Proof. reflexivity. Qed.

Lemma append_cons (a : ascii) (s t : string) :
  String a s +:+ t = String a (s +:+ t).
Proof. reflexivity. Qed.

Lemma append_assoc (a b c : string) : (a +:+ b) +:+ c = a +:+ (b +:+ c).
Proof.
  induction a as [|x a IH]; [reflexivity|].
  rewrite !append_cons. f_equal. exact IH.
Qed.

Lemma append_empty_r (s : string) : s +:+ "" = s.
Proof.
  induction s as [|x s IH]; [reflexivity|].
  rewrite append_cons. f_equal. exact IH.
Qed.

Lemma occurs_in_middle (a s b : string) : Str.occurs_in s (a +:+ s +:+ b).
Proof. now exists a, b. Qed.

Lemma occurs_in_suffix (a s : string) : Str.occurs_in s (a +:+ s).
Proof. exists a, "". now rewrite append_empty_r. Qed.

Lemma starts_with_spec needle s :
  Str.starts_with needle s = true ↔ ∃ rest, s = needle +:+ rest.
Proof.
  revert s. induction needle as [|a n IH]; intros s; simpl.
  - split; [intros _; now exists s | reflexivity].
  - destruct s as [|b s].
    + split; [discriminate | intros [rest H]; discriminate].
    + destruct (decide (a = b)) as [->|Hne].
      * rewrite IH. split; intros [rest H]; exists rest.
        -- now rewrite H.
        -- rewrite append_cons in H. now injection H.
      * split; [discriminate |].
        intros [rest H]. rewrite append_cons in H. injection H. congruence.
Qed.

Lemma contains_spec needle s :
  Str.contains needle s = true ↔ Str.occurs_in needle s.
Proof.
  split.
  - induction s as [|c s IH]; simpl; rewrite orb_true_iff.
    + intros [H|H]; [|discriminate].
      apply starts_with_spec in H as [rest ->]. now exists "", rest.
    + intros [H|H].
      * apply starts_with_spec in H as [rest H]. now exists "", rest.
      * destruct (IH H) as (before & after & ->).
        now exists (String c before), after.
  - intros (before & after & ->).
    induction before as [|c before IH].
    + rewrite append_nil.
      assert (Str.starts_with needle (needle +:+ after) = true) as H
        by (apply starts_with_spec; now exists after).
      destruct (needle +:+ after); simpl; simpl in H; now rewrite H.
    + rewrite append_cons. simpl. rewrite orb_true_iff. right. exact IH.
Qed.

(* ===================================================================== *)
(** ** Running the command *)
(* ===================================================================== *)

(** The truth test in front of the substring test changes nothing: the
    empty string contains no [ERROR]. *)
Lemma error_marker_test s :
  Str.truthy s && Str.contains "ERROR" s = Str.contains "ERROR" s.
Proof. destruct s; reflexivity. Qed.

Lemma run_command_completed env self cmd result :
  proc_run env cmd = inr result →
  _run_command env self cmd =
    if bool_decide (returncode result = 0%Z) then
      if Str.contains "ERROR" (stderr result) then
        ([EvRun cmd; EvPrint ("[Genie Docker] Error: " +:+ stderr result)],
         inl (RuntimeError (failure_message (stderr result))))
      else
        ([EvRun cmd; EvPrint ("[Genie Docker] Output: " +:+ stdout result)],
         inr (stdout result))
    else
      ([EvRun cmd; EvPrint ("[Genie Docker] Error: " +:+ stderr result)],
       inl (RuntimeError (failure_message (stderr result)))).
Proof.
  intros Hrun. unfold _run_command, subprocess_run. rewrite Hrun. simpl.
  destruct (bool_decide (returncode result = 0%Z)); simpl; [|reflexivity].
  rewrite error_marker_test.
  destruct (Str.contains "ERROR" (stderr result)); reflexivity.
Qed.

Lemma run_command_not_started env self cmd e :
  proc_run env cmd = inl e →
  trace (_run_command env self cmd) = EvRun cmd :: match e with
                                                    | CalledProcessError _ _ err =>
                                                        [EvPrint ("[Genie Docker] Error: " +:+ err)]
                                                    | _ => []
                                                    end.
Proof.
  intros Hrun. unfold _run_command, subprocess_run. rewrite Hrun.
  destruct e; reflexivity.
Qed.

(** One call of [_run_command] starts the process once, with the command
    it was given, before anything else. *)
Lemma run_command_trace env self cmd :
  ∃ rest, trace (_run_command env self cmd) = EvRun cmd :: rest
          ∧ ∀ c, ¬ In (EvRun c) rest.
Proof.
  destruct (proc_run env cmd) as [e|result] eqn:Hrun.
  - rewrite (run_command_not_started _ _ _ _ Hrun).
    eexists; split; [reflexivity|].
    intros c. destruct e; simpl; intuition discriminate.
  - rewrite (run_command_completed _ _ _ _ Hrun).
    destruct (bool_decide _); [destruct (Str.contains _ _)|];
      (eexists; split; [reflexivity|]); intros c; simpl; intuition discriminate.
Qed.

(** C1. When the external process was started and exited, [_run_command]
    raises [RuntimeError] exactly when the exit status is not zero or the
    captured error stream contains ["ERROR"]; the error then carries the
    captured error stream, and otherwise the captured output is returned.
    So an exit status of zero with ["ERROR"] in the error stream is a
    failure too. *)
Theorem run_command_failure_policy env self cmd result :
  proc_run env cmd = inr result →
  ((∃ msg, outcome (_run_command env self cmd) = inl (RuntimeError msg))
     ↔ reports_failure result)
  ∧ (reports_failure result →
       outcome (_run_command env self cmd)
       = inl (RuntimeError ("Genie Docker failed:" +:+ Str.nl +:+ stderr result)))
  ∧ (¬ reports_failure result →
       outcome (_run_command env self cmd) = inr (stdout result))
  ∧ (returncode result = 0%Z → Str.occurs_in "ERROR" (stderr result) →
       ∃ msg, outcome (_run_command env self cmd) = inl (RuntimeError msg)
              ∧ Str.occurs_in (stderr result) msg).
Proof.
  intros Hrun. rewrite (run_command_completed _ _ _ _ Hrun).
  unfold reports_failure.
  destruct (bool_decide (returncode result = 0%Z)) eqn:Hrc.
  - apply bool_decide_eq_true in Hrc.
    destruct (Str.contains "ERROR" (stderr result)) eqn:Herr.
    + apply contains_spec in Herr.
      repeat split; eauto.
      * intros H. exfalso. apply H. now right.
      * intros _ _. eexists. split; [reflexivity|].
        unfold failure_message. rewrite <- append_assoc. apply occurs_in_suffix.
    + assert (¬ Str.occurs_in "ERROR" (stderr result)) as Hno.
      { rewrite <- contains_spec. congruence. }
      repeat split.
      * intros [msg H]. discriminate.
      * intros [H|H]; contradiction.
      * intros [H|H]; contradiction.
      * intros _ H. contradiction.
  - apply bool_decide_eq_false in Hrc.
    repeat split; eauto.
    + intros H. exfalso. apply H. now left.
    + intros H. contradiction.
Qed.

(* ===================================================================== *)
(** ** Resolving and validating the paths *)
(* ===================================================================== *)

Lemma filter_provided i o r :
  List.filter py_truthy [Some i; Some o; r] = Some <$> provided i o r.
Proof.
  unfold provided. simpl.
  destruct (Str.truthy i), (Str.truthy o), r as [s|]; simpl;
    try destruct (Str.truthy s); reflexivity.
Qed.

Lemma mapM_cons {A B} (f : A → M B) x l :
  mapM f (x :: l) = (y <-- f x ;; ys <-- mapM f l ;; ret (y :: ys)).
Proof. reflexivity. Qed.

Lemma resolve_Some env s :
  resolve env (Some s) = match fs_resolve env s with
                         | inl e => raise e
                         | inr p => ret p
                         end.
Proof. reflexivity. Qed.

Lemma mapM_resolve env l :
  (∃ e, mapM (resolve env) (Some <$> l) = ([], inl e)
        ∧ ∀ ps, ¬ resolved_forms env l ps)
  ∨ (∃ ps, mapM (resolve env) (Some <$> l) = ([], inr ps)
           ∧ resolved_forms env l ps).
Proof.
  induction l as [|s l IH].
  - right. exists []. split; [reflexivity | constructor].
  - change (Some <$> s :: l) with (Some s :: (Some <$> l)).
    rewrite mapM_cons, resolve_Some.
    destruct (fs_resolve env s) as [e|p] eqn:Hs.
    + left. exists e. split; [reflexivity|].
      intros ps H. inversion H; congruence.
    + rewrite bind_ret_l.
      destruct IH as [(e & -> & Hno) | (ps & -> & Hps)].
      * left. exists e. split; [reflexivity|].
        intros ps H. inversion H; subst. eapply Hno; eassumption.
      * right. exists (p :: ps). split; [reflexivity | now constructor].
Qed.

Lemma resolved_forms_unique env l ps ps' :
  resolved_forms env l ps → resolved_forms env l ps' → ps = ps'.
Proof.
  intros H. revert ps'. induction H; intros ps' H'; inversion H'; subst.
  - reflexivity.
  - f_equal; [congruence | auto].
Qed.

Lemma mapM_resolve_ok env l ps :
  resolved_forms env l ps → mapM (resolve env) (Some <$> l) = ret ps.
Proof.
  intros H. destruct (mapM_resolve env l) as [(e & _ & Hno) | (ps' & -> & H')].
  - destruct (Hno _ H).
  - now rewrite (resolved_forms_unique _ _ _ _ H H').
Qed.

Section ParentDirs.

Implicit Types (ps : list Path) (d : Path).

Lemma elem_of_parent_dirs d ps :
  d ∈ parent_dirs ps ↔ ∃ p, In p ps ∧ PurePath.parent p = d.
Proof.
  unfold parent_dirs. rewrite elem_of_list_to_set, list_elem_of_fmap.
  split; intros (p & H1 & H2).
  - exists p. split; [now apply list_elem_of_In | congruence].
  - exists p. split; [congruence | now apply list_elem_of_In].
Qed.

Lemma parent_dirs_all_in d ps : all_in d ps → parent_dirs ps = {[ d ]}.
Proof.
  intros [Hne Hall]. apply set_eq. intros x.
  rewrite elem_of_parent_dirs, elem_of_singleton. split.
  - intros (p & Hp & <-). auto.
  - intros ->. destruct ps as [|p ps]; [congruence|].
    exists p. split; [now left | apply Hall; now left].
Qed.

Lemma parent_dirs_size ps : size (parent_dirs ps) = 1%nat ↔ share_one_parent ps.
Proof.
  split.
  - intros H. apply size_1_elem_of in H as [d Hd].
    apply leibniz_equiv in Hd. exists d. split.
    + intros ->. unfold parent_dirs in Hd. simpl in Hd.
      assert (d ∈ (∅ : gset Path)) as Habs by (rewrite Hd; set_solver).
      set_solver.
    + intros p Hp.
      assert (PurePath.parent p ∈ parent_dirs ps) as Hin
        by (apply elem_of_parent_dirs; eauto).
      rewrite Hd in Hin. now apply elem_of_singleton in Hin.
  - intros [d H]. rewrite (parent_dirs_all_in _ _ H). apply size_singleton.
Qed.

Lemma parent_dirs_pop d ps :
  all_in d ps → set_pop (parent_dirs ps) = ret d.
Proof.
  intros H. unfold set_pop.
  now rewrite (parent_dirs_all_in _ _ H), elements_singleton.
Qed.

End ParentDirs.

(** What [_resolve_paths] does on the three arguments of a call, once the
    provided paths resolve. *)
Lemma resolve_paths_layout env self i o r ps :
  resolved_forms env (provided i o r) ps →
  ¬ share_one_parent ps →
  _resolve_paths env self [Some i; Some o; r] = raise (ValueError layout_message).
Proof.
  intros Hps Hno. unfold _resolve_paths.
  rewrite filter_provided, (mapM_resolve_ok _ _ _ Hps), bind_ret_l.
  fold (parent_dirs ps).
  rewrite bool_decide_eq_true_2; [reflexivity|].
  now rewrite parent_dirs_size.
Qed.

Lemma resolve_paths_ok env self i o r ps d :
  resolved_forms env (provided i o r) ps →
  all_in d ps →
  _resolve_paths env self [Some i; Some o; r] = ret (ps, d).
Proof.
  intros Hps Hd. unfold _resolve_paths.
  rewrite filter_provided, (mapM_resolve_ok _ _ _ Hps), bind_ret_l.
  fold (parent_dirs ps).
  rewrite bool_decide_eq_false_2.
  - now rewrite (parent_dirs_pop _ _ Hd), bind_ret_l.
  - intros H. apply H. apply parent_dirs_size. now exists d.
Qed.

(** [_resolve_paths] touches nothing: it either raises, or returns the
    resolved forms of the provided paths and their one directory. *)
Lemma resolve_paths_cases env self i o r :
  (∃ e, _resolve_paths env self [Some i; Some o; r] = raise e)
  ∨ (∃ ps d, resolved_forms env (provided i o r) ps ∧ all_in d ps
             ∧ _resolve_paths env self [Some i; Some o; r] = ret (ps, d)).
Proof.
  destruct (mapM_resolve env (provided i o r)) as [(e & He & _) | (ps & _ & Hps)].
  - left. exists e. unfold _resolve_paths. now rewrite filter_provided, He.
  - destruct (decide (size (parent_dirs ps) = 1%nat)) as [H1|H1].
    + apply parent_dirs_size in H1 as [d Hd].
      right. exists ps, d. eauto using resolve_paths_ok.
    + left. eexists. eapply resolve_paths_layout; [eassumption|].
      now rewrite <- parent_dirs_size.
Qed.

(* ===================================================================== *)
(** ** The shape of a call *)
(* ===================================================================== *)

Lemma list_index_0 {A} (x : A) l : list_index (x :: l) 0 = ret x.
Proof. reflexivity. Qed.

Lemma list_index_1 {A} (x y : A) l : list_index (x :: y :: l) 1 = ret y.
Proof. reflexivity. Qed.

Lemma list_index_2 {A} (x y z : A) l : list_index (x :: y :: z :: l) 2 = ret z.
Proof. reflexivity. Qed.

Lemma truthy_nonempty s : Str.truthy s = true ↔ s ≠ "".
Proof. destruct s; simpl; split; congruence. Qed.

Lemma truthy_empty s : Str.truthy s = false ↔ s = "".
Proof. destruct s; simpl; split; congruence. Qed.

(** The provided paths of a validated call, and their resolved forms. *)
Lemma validated_resolved env i o r pin pout pref d :
  validated env i o r pin pout pref d →
  resolved_forms env (provided i o r) (pin :: pout :: option_list pref)
  ∧ py_truthy r = (match pref with Some _ => true | None => false end).
Proof.
  intros ((Hi & Hpi) & (Ho & Hpo) & Hr & _).
  apply truthy_nonempty in Hi, Ho. unfold provided. simpl. rewrite Hi, Ho.
  destruct pref as [pr|]; simpl in Hr.
  - destruct Hr as (s & -> & Hs & Hps). apply truthy_nonempty in Hs.
    simpl. rewrite Hs. split; [|reflexivity]. repeat constructor; assumption.
  - destruct Hr as [-> | ->]; simpl; (split; [|reflexivity]);
      repeat constructor; assumption.
Qed.

(** Evaluating the straight-line part of [compress] and [decompress]. *)
Ltac run_prefix :=
  repeat first
    [ rewrite bind_ret_l
    | rewrite list_index_0
    | rewrite list_index_1
    | rewrite list_index_2
    | progress cbv beta iota zeta ].

Lemma compress_validated env self i o r ll pin pout pref d :
  validated env i o r pin pout pref d →
  compress env self i o r ll =
    (mkdir env d ;;;
     _run_command env self
       (container_words self d ++ file_words pin pout
        ++ ["--qv"; "none"; "-f"]
        ++ (if ll then ["--low-latency"] else [])
        ++ reference_words pref)).
Proof.
  intros Hv. destruct (validated_resolved _ _ _ _ _ _ _ _ Hv) as [Hps Hr].
  destruct Hv as (_ & _ & _ & Hd).
  assert (PurePath.parent pout = d) as Hout by (apply Hd; simpl; auto).
  unfold compress. rewrite (resolve_paths_ok _ _ _ _ _ _ _ Hps Hd), Hr.
  destruct pref as [pr|]; simpl option_list; run_prefix; rewrite Hout;
    destruct ll; reflexivity.
Qed.

Lemma decompress_validated env self i o r pin pout pref d :
  validated env i o r pin pout pref d →
  decompress env self i o r =
    (mkdir env d ;;;
     _run_command env self
       (container_words self d ++ file_words pin pout
        ++ ["-f"] ++ reference_words pref)).
Proof.
  intros Hv. destruct (validated_resolved _ _ _ _ _ _ _ _ Hv) as [Hps Hr].
  destruct Hv as (_ & _ & _ & Hd).
  assert (PurePath.parent pout = d) as Hout by (apply Hd; simpl; auto).
  unfold decompress. rewrite (resolve_paths_ok _ _ _ _ _ _ _ Hps Hd), Hr.
  destruct pref as [pr|]; simpl option_list; run_prefix; rewrite Hout;
    reflexivity.
Qed.

(** A call either passes validation, or raises before it has touched
    anything. *)
Lemma call_cases env self i o r :
  (∃ pin pout pref d, validated env i o r pin pout pref d)
  ∨ ((∀ ll, ∃ e, compress env self i o r ll = raise e)
     ∧ (∃ e, decompress env self i o r = raise e)).
Proof.
  destruct (resolve_paths_cases env self i o r)
    as [(e & He) | (ps & d & Hps & Hd & He)].
  - right. unfold compress, decompress. rewrite He.
    split; [intros ll|]; exists e; reflexivity.
  - unfold provided, resolved_forms in Hps. simpl in Hps.
    destruct (Str.truthy i) eqn:Hi, (Str.truthy o) eqn:Ho.
    + (* input and output are both provided *)
      left. apply truthy_nonempty in Hi, Ho.
      destruct r as [s|]; simpl in Hps; [destruct (Str.truthy s) eqn:Hs|].
      * apply truthy_nonempty in Hs.
        inversion Hps as [|? pin ? ps1 Hpi H1]; subst.
        inversion H1 as [|? pout ? ps2 Hpo H2]; subst.
        inversion H2 as [|? pr ? ps3 Hpr H3]; subst.
        inversion H3; subst.
        exists pin, pout, (Some pr), d. repeat split; try assumption.
        -- exists s. auto.
        -- apply Hd.
        -- apply Hd.
      * apply truthy_empty in Hs. subst s.
        inversion Hps as [|? pin ? ps1 Hpi H1]; subst.
        inversion H1 as [|? pout ? ps2 Hpo H2]; subst.
        inversion H2; subst.
        exists pin, pout, None, d. repeat split; try assumption.
        -- now right.
        -- apply Hd.
        -- apply Hd.
      * inversion Hps as [|? pin ? ps1 Hpi H1]; subst.
        inversion H1 as [|? pout ? ps2 Hpo H2]; subst.
        inversion H2; subst.
        exists pin, pout, None, d. repeat split; try assumption.
        -- now left.
        -- apply Hd.
        -- apply Hd.
    + (* the output is empty: a list index runs off the resolved paths *)
      right. unfold compress, decompress. rewrite He.
      destruct r as [s|]; simpl in Hps; [destruct (Str.truthy s) eqn:Hs|];
        repeat match goal with
               | H : Forall2 _ _ _ |- _ => inversion H; clear H; subst
               end;
        simpl py_truthy; rewrite ?Hs;
        (split; [intros ll|]; eexists; reflexivity).
    + right. unfold compress, decompress. rewrite He.
      destruct r as [s|]; simpl in Hps; [destruct (Str.truthy s) eqn:Hs|];
        repeat match goal with
               | H : Forall2 _ _ _ |- _ => inversion H; clear H; subst
               end;
        simpl py_truthy; rewrite ?Hs;
        (split; [intros ll|]; eexists; reflexivity).
    + right. unfold compress, decompress. rewrite He.
      destruct r as [s|]; simpl in Hps; [destruct (Str.truthy s) eqn:Hs|];
        repeat match goal with
               | H : Forall2 _ _ _ |- _ => inversion H; clear H; subst
               end;
        simpl py_truthy; rewrite ?Hs;
        (split; [intros ll|]; eexists; reflexivity).
Qed.

Lemma trace_mkdir_then_run env self d cmd c :
  In (EvRun c) (trace (mkdir env d ;;; _run_command env self cmd)) → c = cmd.
Proof.
  rewrite trace_bind. unfold mkdir.
  destruct (run_command_trace env self cmd) as (rest & Hrest & Hno).
  destruct (fs_mkdir env d) as [e|]; simpl.
  - intros [H|[]]. discriminate.
  - rewrite Hrest. simpl. intros [H|[H|H]]; [discriminate | congruence |].
    destruct (Hno _ H).
Qed.

(** Every command a [compress] call runs is the one command of a validated
    call. *)
Lemma compress_command env self i o r ll cmd :
  In (EvRun cmd) (trace (compress env self i o r ll)) →
  ∃ pin pout pref d,
    validated env i o r pin pout pref d
    ∧ cmd = container_words self d ++ file_words pin pout
            ++ ["--qv"; "none"; "-f"]
            ++ (if ll then ["--low-latency"] else [])
            ++ reference_words pref.
Proof.
  destruct (call_cases env self i o r)
    as [(pin & pout & pref & d & Hv) | [Hc _]].
  - rewrite (compress_validated _ _ _ _ _ ll _ _ _ _ Hv).
    intros H%trace_mkdir_then_run. eauto 10.
  - destruct (Hc ll) as [e ->]. intros [].
Qed.

Lemma decompress_command env self i o r cmd :
  In (EvRun cmd) (trace (decompress env self i o r)) →
  ∃ pin pout pref d,
    validated env i o r pin pout pref d
    ∧ cmd = container_words self d ++ file_words pin pout
            ++ ["-f"] ++ reference_words pref.
Proof.
  destruct (call_cases env self i o r)
    as [(pin & pout & pref & d & Hv) | [_ [e He]]].
  - rewrite (decompress_validated _ _ _ _ _ _ _ _ _ Hv).
    intros H%trace_mkdir_then_run. eauto 10.
  - rewrite He. intros [].
Qed.

(** A validated call whose output directory can be made does run its
    command. *)
Lemma trace_mkdir_then_run_ok env self d cmd :
  fs_mkdir env d = None →
  In (EvRun cmd) (trace (mkdir env d ;;; _run_command env self cmd)).
Proof.
  intros Hmk. rewrite trace_bind. unfold mkdir. rewrite Hmk. simpl.
  destruct (run_command_trace env self cmd) as (rest & -> & _).
  right. now left.
Qed.

Lemma validated_call_runs env self i o r ll pin pout pref d :
  validated env i o r pin pout pref d →
  fs_mkdir env d = None →
  (∃ cmd, In (EvRun cmd) (trace (compress env self i o r ll)))
  ∧ (∃ cmd, In (EvRun cmd) (trace (decompress env self i o r))).
Proof.
  intros Hv Hmk. split; eexists.
  - rewrite (compress_validated _ _ _ _ _ ll _ _ _ _ Hv).
    now apply trace_mkdir_then_run_ok.
  - rewrite (decompress_validated _ _ _ _ _ _ _ _ _ Hv).
    now apply trace_mkdir_then_run_ok.
Qed.

(* ===================================================================== *)
(** ** The words of a command *)
(* ===================================================================== *)

(** The words built from paths start with a slash, so none of them is an
    option. *)
Lemma work_word x : "/work/" +:+ x = String "/" ("work/" +:+ x).
Proof. reflexivity. Qed.

Lemma mount_word d :
  PurePath.str d +:+ ":/work" = String "/" (Str.join "/" d +:+ ":/work").
Proof. reflexivity. Qed.

(** Settles whether an option occurs in a list of words that is written
    out. *)
Ltac word_cases :=
  unfold container_words, file_words, reference_words in *;
  repeat match goal with
         | b : bool |- _ => destruct b
         | p : option Path |- _ => destruct p
         end;
  simpl; rewrite ?work_word, ?mount_word;
  intuition (try discriminate; try congruence).

Lemma followed_by_app_r a b l1 l2 : followed_by a b l2 → followed_by a b (l1 ++ l2).
Proof.
  intros (x & y & ->). exists (l1 ++ x), y. now rewrite <- List.app_assoc.
Qed.

Lemma followed_by_end a b l : followed_by a b (l ++ [a; b]).
Proof. now exists l, []. Qed.

Lemma followed_by_here a b l : followed_by a b (a :: b :: l).
Proof. now exists [], l. Qed.

(* ===================================================================== *)
(** ** The claims about the docker backend *)
(* ===================================================================== *)

(** C2, amended.  The provided paths are the arguments that pass the truth
    test of [_resolve_paths]: [None] and the empty string are left out.
    When the resolved absolute forms of the provided paths do not share
    exactly one parent directory, [compress] and [decompress] raise
    [ValueError] with the path-layout message, and their trace is empty:
    no directory was made and no process was started. *)
Theorem layout_error_before_any_process env self i o r ll ps :
  resolved_forms env (provided i o r) ps →
  ¬ share_one_parent ps →
  compress env self i o r ll
    = ([], inl (ValueError
                  "All files must be in the same directory for Docker binding."))
  ∧ decompress env self i o r
    = ([], inl (ValueError
                  "All files must be in the same directory for Docker binding.")).
Proof.
  intros Hps Hno. unfold compress, decompress.
  rewrite (resolve_paths_layout _ self _ _ _ _ Hps Hno). split; reflexivity.
Qed.

(** C5. Every command a [compress] call runs passes the tool ["--qv"]
    followed by ["none"], and ["-f"], whatever the arguments of the call.
    Every command a [decompress] call runs passes the tool ["-f"] and never
    ["--qv"]. *)
Theorem fixed_flags env self i o r ll cmd :
  (In (EvRun cmd) (trace (compress env self i o r ll)) →
     ∃ d args, cmd = ["docker"; "run"; "--rm"; "-v"; PurePath.str d +:+ ":/work";
                      image self] ++ args
               ∧ followed_by "--qv" "none" args ∧ In "-f" args)
  ∧ (In (EvRun cmd) (trace (decompress env self i o r)) →
     ∃ d args, cmd = ["docker"; "run"; "--rm"; "-v"; PurePath.str d +:+ ":/work";
                      image self] ++ args
               ∧ In "-f" args ∧ ¬ In "--qv" args
               ∧ (image self ≠ "--qv" → ¬ In "--qv" cmd)).
Proof.
  split.
  - intros (pin & pout & pref & d & _ & ->)%compress_command.
    exists d. eexists. split; [reflexivity|]. split.
    + apply followed_by_app_r, followed_by_here.
    + apply in_or_app. right. simpl. auto.
  - intros (pin & pout & pref & d & _ & ->)%decompress_command.
    exists d. eexists. split; [reflexivity|]. split; [|split].
    + apply in_or_app. right. simpl. auto.
    + word_cases.
    + word_cases.
Qed.

(** C6. A command a [compress] call runs passes the tool ["--low-latency"]
    exactly when the call was made with [low_latency=True]. *)
Theorem low_latency_flag env self i o r ll cmd :
  In (EvRun cmd) (trace (compress env self i o r ll)) →
  ∃ d args, cmd = ["docker"; "run"; "--rm"; "-v"; PurePath.str d +:+ ":/work";
                   image self] ++ args
            ∧ (In "--low-latency" args ↔ ll = true)
            ∧ (image self ≠ "--low-latency" →
               (In "--low-latency" cmd ↔ ll = true)).
Proof.
  intros (pin & pout & pref & d & _ & ->)%compress_command.
  exists d. eexists. split; [reflexivity|]. split; word_cases.
Qed.

(** C7. A call that passes validation hands [_run_command], after making
    the directory, a command whose tool arguments have ["-r"] followed by
    [/work/<name of the resolved reference>] when the call supplied a
    reference, and no ["-r"] when it supplied none ([None] or the empty
    string); this holds for [compress] and for [decompress], and the
    command is run when the directory can be made.  Conversely every
    command either function runs is of this kind. *)
Theorem reference_flag env self i o r ll :
  (∀ pin pout pref d,
     validated env i o r pin pout pref d →
     ∃ args_c args_d,
       compress env self i o r ll
       = (mkdir env d ;;;
          _run_command env self
            (["docker"; "run"; "--rm"; "-v"; PurePath.str d +:+ ":/work";
              image self] ++ args_c))
       ∧ decompress env self i o r
         = (mkdir env d ;;;
            _run_command env self
              (["docker"; "run"; "--rm"; "-v"; PurePath.str d +:+ ":/work";
                image self] ++ args_d))
       ∧ (fs_mkdir env d = None →
          In (EvRun (["docker"; "run"; "--rm"; "-v"; PurePath.str d +:+ ":/work";
                      image self] ++ args_c))
             (trace (compress env self i o r ll))
          ∧ In (EvRun (["docker"; "run"; "--rm"; "-v"; PurePath.str d +:+ ":/work";
                        image self] ++ args_d))
               (trace (decompress env self i o r)))
       ∧ match pref with
         | Some pr =>
             followed_by "-r" ("/work/" +:+ PurePath.name pr) args_c
             ∧ followed_by "-r" ("/work/" +:+ PurePath.name pr) args_d
         | None => ¬ In "-r" args_c ∧ ¬ In "-r" args_d
         end)
  ∧ (∀ cmd,
       In (EvRun cmd) (trace (compress env self i o r ll))
       ∨ In (EvRun cmd) (trace (decompress env self i o r)) →
       ∃ d args pref,
         cmd = ["docker"; "run"; "--rm"; "-v"; PurePath.str d +:+ ":/work";
                image self] ++ args
         ∧ reference_form env r pref
         ∧ match pref with
           | Some pr => followed_by "-r" ("/work/" +:+ PurePath.name pr) args
           | None => ¬ In "-r" args ∧ (image self ≠ "-r" → ¬ In "-r" cmd)
           end).
Proof.
  split.
  - intros pin pout pref d Hv.
    exists (file_words pin pout ++ ["--qv"; "none"; "-f"]
            ++ (if ll then ["--low-latency"] else []) ++ reference_words pref),
           (file_words pin pout ++ ["-f"] ++ reference_words pref).
    split; [exact (compress_validated _ _ _ _ _ ll _ _ _ _ Hv)|].
    split; [exact (decompress_validated _ _ _ _ _ _ _ _ _ Hv)|].
    split.
    + intros Hmk. split.
      * rewrite (compress_validated _ _ _ _ _ ll _ _ _ _ Hv).
        now apply trace_mkdir_then_run_ok.
      * rewrite (decompress_validated _ _ _ _ _ _ _ _ _ Hv).
        now apply trace_mkdir_then_run_ok.
    + clear Hv. destruct pref as [pr|].
      * split; unfold reference_words; rewrite !List.app_assoc;
          apply followed_by_end.
      * split; word_cases.
  - intros cmd
      [(pin & pout & pref & d & Hv & ->)%compress_command
      |(pin & pout & pref & d & Hv & ->)%decompress_command];
      destruct Hv as (_ & _ & Hr & _);
      exists d; eexists; exists pref; (split; [reflexivity|]);
        (split; [exact Hr|]).
    + destruct pref as [pr|].
      * unfold reference_words. rewrite !List.app_assoc. apply followed_by_end.
      * split; word_cases.
    + destruct pref as [pr|].
      * unfold reference_words. rewrite !List.app_assoc. apply followed_by_end.
      * split; word_cases.
Qed.


(** C10. An empty string as reference is the same call as no reference:
    the same paths are provided, [_resolve_paths] does the same, and
    [compress] and [decompress] do the same, event for event; so no ["-r"]
    reaches the tool. *)
Theorem empty_reference_is_none env self i o ll :
  provided i o (Some "") = provided i o None
  ∧ _resolve_paths env self [Some i; Some o; Some ""]
    = _resolve_paths env self [Some i; Some o; None]
  ∧ compress env self i o (Some "") ll = compress env self i o None ll
  ∧ decompress env self i o (Some "") = decompress env self i o None
  ∧ ∀ cmd, In (EvRun cmd) (trace (compress env self i o (Some "") ll))
           ∨ In (EvRun cmd) (trace (decompress env self i o (Some ""))) →
           ¬ In "-r" (skipn 6 cmd).
Proof.
  repeat split; try reflexivity.
  intros cmd
    [(pin & pout & pref & d & Hv & ->)%compress_command
    |(pin & pout & pref & d & Hv & ->)%decompress_command];
    destruct Hv as (_ & _ & Hr & _);
    (destruct pref as [pr|];
     [ destruct Hr as (s & Hs & Hne & _); congruence | clear; word_cases ]).
Qed.

(* ===================================================================== *)
(** ** The claims about the public functions *)
(* ===================================================================== *)

Lemma get_runner_unknown env native m :
  m ≠ "native" → m ≠ "docker" →
  api._get_runner env native m = raise (ValueError (api.unknown_mode_message m)).
Proof.
  intros Hn Hd. unfold api._get_runner.
  destruct (decide (m = "native")); [contradiction|].
  destruct (decide (m = "docker")); [contradiction|]. reflexivity.
Qed.

(** C3. A mode other than the exact strings ["native"] and ["docker"] is
    refused by [_get_runner], [compress] and [decompress] with a
    [ValueError], before anything else happens; its message quotes the mode
    as it was given and names ['native'] and ['docker']. *)
Theorem unknown_mode_rejected env native m i o r ll :
  m ≠ "native" → m ≠ "docker" →
  let msg := "Unknown mode '" +:+ m +:+ "'. Must be 'native' or 'docker'." in
  api._get_runner env native m = ([], inl (ValueError msg))
  ∧ api.compress env native i o r (Passed m) ll = ([], inl (ValueError msg))
  ∧ api.decompress env native i o r (Passed m) = ([], inl (ValueError msg))
  ∧ Str.occurs_in m msg
  ∧ Str.occurs_in "'native'" msg
  ∧ Str.occurs_in "'docker'" msg.
Proof.
  intros Hn Hd msg.
  pose proof (get_runner_unknown env native m Hn Hd) as Hg.
  split; [exact Hg|]. split; [|split; [|split; [|split]]].
  - unfold api.compress. simpl kwarg_value. now rewrite Hg.
  - unfold api.decompress. simpl kwarg_value. now rewrite Hg.
  - apply occurs_in_middle.
  - exists ("Unknown mode '" +:+ m +:+ "'. Must be "), " or 'docker'.".
    subst msg. now rewrite !append_assoc.
  - exists ("Unknown mode '" +:+ m +:+ "'. Must be 'native' or "), ".".
    subst msg. now rewrite !append_assoc.
Qed.

(** C4. [compress("a/in.fastq", "a/out.mgb", mode="native")] builds the
    native backend and is its [compress] called with [reference=None] and
    [low_latency=False], nothing before and nothing after.  With a backend
    that records its calls, the trace is that one call and the result is
    what the backend answered, text or exception, unchanged. *)
Theorem native_compress_end_to_end env :
  (∀ native,
     api.compress env native "a/in.fastq" "a/out.mgb" None (Passed "native") Omitted
     = (runner <-- native ;;
        runner_compress runner "a/in.fastq" "a/out.mgb" None false))
  ∧ (∀ reply,
       api.compress env (ret (Sample.recording_backend reply))
                    "a/in.fastq" "a/out.mgb" None (Passed "native") Omitted
       = ([EvBackend (CallCompress "a/in.fastq" "a/out.mgb" None false)],
          reply (CallCompress "a/in.fastq" "a/out.mgb" None false))).
Proof.
  split.
  - intros native. reflexivity.
  - intros reply. unfold api.compress, api._get_runner. simpl.
    destruct (reply _); reflexivity.
Qed.

(** C9. A call of the public [compress] or [decompress] that leaves [mode]
    out runs the docker backend, built with its default image. *)
Theorem default_mode_is_docker env native i o r ll :
  api.DEFAULT_MODE = "docker"
  ∧ api._get_runner env native api.DEFAULT_MODE = api.DockerGenieRunner env
  ∧ api.compress env native i o r Omitted ll
    = docker_runner.compress env {| image := "muefab/genie:latest" |} i o r
                             (kwarg_value false ll)
  ∧ api.decompress env native i o r Omitted
    = docker_runner.decompress env {| image := "muefab/genie:latest" |} i o r.
Proof.
  split; [reflexivity|]. split; [reflexivity|]. split.
  - unfold api.compress. simpl kwarg_value.
    change (api._get_runner env native api.DEFAULT_MODE)
      with (ret (as_runner env (__init__ Omitted))).
    now rewrite bind_ret_l.
  - unfold api.decompress. simpl kwarg_value.
    change (api._get_runner env native api.DEFAULT_MODE)
      with (ret (as_runner env (__init__ Omitted))).
    now rewrite bind_ret_l.
Qed.

(* ===================================================================== *)
(** ** The claims at concrete calls *)
(* ===================================================================== *)

Import Sample.

(** The sample call [("a/in.fastq", "a/out.mgb", reference)] passes
    validation on the sample file systems. *)
Ltac sample_validated :=
  split; [split; [discriminate | reflexivity]|];
  split; [split; [discriminate | reflexivity]|];
  split; [first [ now left | eexists; split; [reflexivity|];
                            split; [discriminate | reflexivity] ]|];
  split; [discriminate|];
  intros q Hq; simpl in Hq;
  repeat (destruct Hq as [<- | Hq]; [reflexivity|]); destruct Hq.

Lemma run_command_failure_policy_witness :
  proc_run (Sample.env Sample.home Sample.failed_quietly) ["docker"; "run"]
    = inr Sample.failed_quietly
  ∧ outcome (_run_command (Sample.env Sample.home Sample.failed_quietly)
                          runner ["docker"; "run"])
    = inl (RuntimeError ("Genie Docker failed:" +:+ Str.nl
                         +:+ "ERROR: Input file does not exist")).
Proof.
  split; [reflexivity|].
  apply (proj1 (proj2 (run_command_failure_policy
                         (Sample.env Sample.home Sample.failed_quietly)
                         runner ["docker"; "run"] Sample.failed_quietly eq_refl))).
  right. exists "", ": Input file does not exist". reflexivity.
Defined.

Lemma layout_error_before_any_process_witness :
  compress quiet_env runner "a/in.fastq" "b/out.mgb" None false
  = ([], inl (ValueError
                "All files must be in the same directory for Docker binding.")).
Proof.
  apply (layout_error_before_any_process quiet_env runner
           "a/in.fastq" "b/out.mgb" None false
           [["home"; "user"; "a"; "in.fastq"]; ["home"; "user"; "b"; "out.mgb"]]).
  - repeat constructor.
  - intros (d & _ & H).
    pose proof (H _ (or_introl eq_refl)) as H1.
    pose proof (H _ (or_intror (or_introl eq_refl))) as H2.
    rewrite <- H2 in H1. discriminate H1.
Defined.

(** C2 as it is worded counts input and output whatever they are.  An
    empty output resolves to the working directory, whose parent is not
    the parent of the input; yet the call raises [IndexError], not
    [ValueError]: the empty string was left out of the directory check. *)
Lemma layout_error_counterexample :
  ¬ (∀ env self i o r ll ps,
       resolved_forms env (i :: o :: option_list r) ps →
       ¬ share_one_parent ps →
       ∃ msg, outcome (compress env self i o r ll) = inl (ValueError msg)).
Proof.
  intros Hclaim.
  destruct (Hclaim quiet_env runner "a/in.fastq" "" None false
              [["home"; "user"; "a"; "in.fastq"]; ["home"; "user"]])
    as [msg Hmsg].
  - repeat constructor.
  - intros (d & _ & H).
    pose proof (H _ (or_introl eq_refl)) as H1.
    pose proof (H _ (or_intror (or_introl eq_refl))) as H2.
    rewrite <- H2 in H1. discriminate H1.
  - vm_compute in Hmsg. discriminate Hmsg.
Qed.

Lemma unknown_mode_rejected_witness :
  api._get_runner quiet_env native "Native"
  = ([], inl (ValueError "Unknown mode 'Native'. Must be 'native' or 'docker'.")).
Proof.
  apply (unknown_mode_rejected quiet_env native "Native" "in" "out" None Omitted);
    discriminate.
Defined.

Lemma fixed_flags_witness :
  (∃ d args,
     ["docker"; "run"; "--rm"; "-v"; "/home/user/a:/work"; "muefab/genie:latest";
      "run"; "-i"; "/work/in.fastq"; "-o"; "/work/out.mgb"; "--qv"; "none"; "-f"]
     = ["docker"; "run"; "--rm"; "-v"; PurePath.str d +:+ ":/work"; image runner]
       ++ args
     ∧ followed_by "--qv" "none" args ∧ In "-f" args)
  ∧ (∃ d args,
       ["docker"; "run"; "--rm"; "-v"; "/home/user/a:/work"; "muefab/genie:latest";
        "run"; "-i"; "/work/out.mgb"; "-o"; "/work/back.fastq"; "-f"]
       = ["docker"; "run"; "--rm"; "-v"; PurePath.str d +:+ ":/work"; image runner]
         ++ args
       ∧ In "-f" args ∧ ¬ In "--qv" args
       ∧ (image runner ≠ "--qv" → ¬ In "--qv"
            ["docker"; "run"; "--rm"; "-v"; "/home/user/a:/work";
             "muefab/genie:latest";
             "run"; "-i"; "/work/out.mgb"; "-o"; "/work/back.fastq"; "-f"])).
Proof.
  split.
  - apply (proj1 (fixed_flags quiet_env runner "a/in.fastq" "a/out.mgb" None false _)).
    vm_compute. right. left. reflexivity.
  - apply (proj2 (fixed_flags quiet_env runner "a/out.mgb" "a/back.fastq" None false _)).
    vm_compute. right. left. reflexivity.
Defined.

Lemma low_latency_flag_witness :
  ∃ d args,
    ["docker"; "run"; "--rm"; "-v"; "/home/user/a:/work"; "muefab/genie:latest";
     "run"; "-i"; "/work/in.fastq"; "-o"; "/work/out.mgb"; "--qv"; "none"; "-f";
     "--low-latency"]
    = ["docker"; "run"; "--rm"; "-v"; PurePath.str d +:+ ":/work"; image runner]
      ++ args
    ∧ (In "--low-latency" args ↔ true = true)
    ∧ (image runner ≠ "--low-latency" →
       (In "--low-latency"
           ["docker"; "run"; "--rm"; "-v"; "/home/user/a:/work";
            "muefab/genie:latest";
            "run"; "-i"; "/work/in.fastq"; "-o"; "/work/out.mgb";
            "--qv"; "none"; "-f"; "--low-latency"]
        ↔ true = true)).
Proof.
  apply (low_latency_flag quiet_env runner "a/in.fastq" "a/out.mgb" None true).
  vm_compute. right. left. reflexivity.
Defined.

Lemma reference_flag_witness :
  (∃ args_c args_d,
     In (EvRun (["docker"; "run"; "--rm"; "-v"; "/home/user/a:/work";
                 "muefab/genie:latest"] ++ args_c))
        (trace (compress quiet_env runner "a/in.fastq" "a/out.mgb"
                         (Some "a/ref.fasta") false))
     ∧ In (EvRun (["docker"; "run"; "--rm"; "-v"; "/home/user/a:/work";
                   "muefab/genie:latest"] ++ args_d))
          (trace (decompress quiet_env runner "a/in.fastq" "a/out.mgb"
                             (Some "a/ref.fasta")))
     ∧ followed_by "-r" "/work/ref.fasta" args_c
     ∧ followed_by "-r" "/work/ref.fasta" args_d)
  ∧ (∃ args_c args_d,
       In (EvRun (["docker"; "run"; "--rm"; "-v"; "/home/user/a:/work";
                   "muefab/genie:latest"] ++ args_c))
          (trace (compress quiet_env runner "a/in.fastq" "a/out.mgb" None false))
       ∧ In (EvRun (["docker"; "run"; "--rm"; "-v"; "/home/user/a:/work";
                     "muefab/genie:latest"] ++ args_d))
            (trace (decompress quiet_env runner "a/in.fastq" "a/out.mgb" None))
       ∧ ¬ In "-r" args_c ∧ ¬ In "-r" args_d)
  ∧ (∃ d args pref,
       ["docker"; "run"; "--rm"; "-v"; "/home/user/a:/work"; "muefab/genie:latest";
        "run"; "-i"; "/work/in.fastq"; "-o"; "/work/out.mgb"; "-f";
        "-r"; "/work/ref.fasta"]
       = ["docker"; "run"; "--rm"; "-v"; PurePath.str d +:+ ":/work"; image runner]
         ++ args
       ∧ reference_form quiet_env (Some "a/ref.fasta") pref
       ∧ match pref with
         | Some pr => followed_by "-r" ("/work/" +:+ PurePath.name pr) args
         | None => ¬ In "-r" args
                   ∧ (image runner ≠ "-r" → ¬ In "-r"
                        ["docker"; "run"; "--rm"; "-v"; "/home/user/a:/work";
                         "muefab/genie:latest";
                         "run"; "-i"; "/work/in.fastq"; "-o"; "/work/out.mgb";
                         "-f"; "-r"; "/work/ref.fasta"])
         end).
Proof.
  split; [|split].
  - destruct (proj1 (reference_flag quiet_env runner "a/in.fastq" "a/out.mgb"
                       (Some "a/ref.fasta") false)
                ["home"; "user"; "a"; "in.fastq"] ["home"; "user"; "a"; "out.mgb"]
                (Some ["home"; "user"; "a"; "ref.fasta"]) ["home"; "user"; "a"])
      as (args_c & args_d & _ & _ & Hrun & Hc & Hd).
    + sample_validated.
    + destruct (Hrun eq_refl) as [H1 H2]. exists args_c, args_d. auto.
  - destruct (proj1 (reference_flag quiet_env runner "a/in.fastq" "a/out.mgb"
                       None false)
                ["home"; "user"; "a"; "in.fastq"] ["home"; "user"; "a"; "out.mgb"]
                None ["home"; "user"; "a"])
      as (args_c & args_d & _ & _ & Hrun & Hc & Hd).
    + sample_validated.
    + destruct (Hrun eq_refl) as [H1 H2]. exists args_c, args_d. auto.
  - apply (proj2 (reference_flag quiet_env runner "a/in.fastq" "a/out.mgb"
                    (Some "a/ref.fasta") false)).
    right. vm_compute. right. left. reflexivity.
Defined.


Lemma empty_reference_is_none_witness :
  ¬ In "-r"
    (skipn 6
       ["docker"; "run"; "--rm"; "-v"; "/home/user/a:/work"; "muefab/genie:latest";
        "run"; "-i"; "/work/in.fastq"; "-o"; "/work/out.mgb"; "--qv"; "none"; "-f";
        "--low-latency"]).
Proof.
  apply (proj2 (proj2 (proj2 (proj2
           (empty_reference_is_none quiet_env runner "a/in.fastq" "a/out.mgb" true))))).
  left. vm_compute. right. left. reflexivity.
Defined.

(* ===================================================================== *)
(** ** [_resolve_paths] on any number of arguments *)
(* ===================================================================== *)

Lemma filter_truthy_strings paths :
  List.filter py_truthy paths = Some <$> truthy_strings paths.
Proof.
  induction paths as [|p paths IH]; [reflexivity|].
  unfold truthy_strings in *. simpl.
  destruct (py_truthy p) eqn:Hp; simpl.
  - destruct p as [s|]; [|discriminate]. simpl. now rewrite IH.
  - exact IH.
Qed.

Lemma resolve_paths_trace env self paths :
  trace (_resolve_paths env self paths) = [].
Proof.
  unfold _resolve_paths. rewrite filter_truthy_strings.
  destruct (mapM_resolve env (truthy_strings paths))
    as [(e & -> & _) | (ps & -> & _)]; [reflexivity|].
  change (([] : list event), (inr ps : exn + list Path)) with (ret ps).
  rewrite bind_ret_l.
  destruct (bool_decide _); [reflexivity|].
  unfold set_pop. destruct (elements _); reflexivity.
Qed.

(** [_resolve_paths] returns exactly when every argument that passes the
    truth test resolves and the resolved paths lie in one directory; it
    then returns them in the order of the arguments, with that directory. *)
Theorem resolve_paths_returns env self paths ps d :
  _resolve_paths env self paths = ([], inr (ps, d))
  ↔ resolved_forms env (truthy_strings paths) ps ∧ all_in d ps.
Proof.
  unfold _resolve_paths. rewrite filter_truthy_strings.
  destruct (mapM_resolve env (truthy_strings paths))
    as [(e & -> & Hno) | (ps' & -> & Hps')].
  - split; [discriminate|]. intros [H _]. destruct (Hno _ H).
  - change (([] : list event), (inr ps' : exn + list Path)) with (ret ps').
    rewrite bind_ret_l. fold (parent_dirs ps').
    destruct (bool_decide (size (parent_dirs ps') ≠ 1%nat)) eqn:Hsz.
    + apply bool_decide_eq_true in Hsz. split; [discriminate|].
      intros [H Hd]. rewrite (resolved_forms_unique _ _ _ _ Hps' H) in Hsz.
      destruct Hsz. apply parent_dirs_size. now exists d.
    + apply bool_decide_eq_false in Hsz.
      assert (size (parent_dirs ps') = 1%nat) as H1
        by (destruct (decide (size (parent_dirs ps') = 1%nat)); tauto).
      apply parent_dirs_size in H1 as [d' Hd'].
      rewrite (parent_dirs_pop _ _ Hd'), bind_ret_l. split.
      * intros H. injection H as -> ->. auto.
      * intros [H Hd]. rewrite (resolved_forms_unique _ _ _ _ Hps' H) in *.
        destruct ps as [|p ps]; [destruct Hd as [[] _]; reflexivity|].
        destruct Hd as [_ Hd], Hd' as [_ Hd'].
        rewrite <- (Hd p), <- (Hd' p) by now left. reflexivity.
Qed.

(** Without any argument that passes the truth test (no argument at all,
    or only [None] and empty strings) [_resolve_paths] raises the
    path-layout [ValueError]: the set of parent directories is empty. *)
Theorem resolve_paths_nothing_provided env self paths :
  Forall (λ p, p = None ∨ p = Some "") paths →
  _resolve_paths env self paths
  = ([], inl (ValueError
                "All files must be in the same directory for Docker binding.")).
Proof.
  intros Hall. unfold _resolve_paths.
  assert (List.filter py_truthy paths = []) as ->; [|reflexivity].
  induction Hall as [|p paths [-> | ->] _ IH]; simpl; auto.
Qed.

(** An exception of [resolve()] leaves [_resolve_paths], [compress] and
    [decompress] as it is, before anything was done: that of the first
    provided path that does not resolve. *)
Theorem resolve_error_propagates env self i o r ll before s after ps e :
  provided i o r = before ++ s :: after →
  resolved_forms env before ps →
  fs_resolve env s = inl e →
  _resolve_paths env self [Some i; Some o; r] = ([], inl e)
  ∧ compress env self i o r ll = ([], inl e)
  ∧ decompress env self i o r = ([], inl e).
Proof.
  intros Hprov Hps He.
  assert (_resolve_paths env self [Some i; Some o; r] = raise e) as Hr.
  { unfold _resolve_paths. rewrite filter_provided, Hprov. clear Hprov.
    assert (mapM (resolve env) (Some <$> before ++ s :: after) = raise e) as ->;
      [|reflexivity].
    induction Hps as [|x p l ps Hx _ IH].
    - change (Some <$> [] ++ s :: after) with (Some s :: (Some <$> after)).
      now rewrite mapM_cons, resolve_Some, He.
    - change (Some <$> (x :: l) ++ s :: after)
        with (Some x :: (Some <$> l ++ s :: after)).
      now rewrite mapM_cons, resolve_Some, Hx, bind_ret_l, IH. }
  split; [exact Hr|]. unfold compress, decompress. rewrite Hr. split; reflexivity.
Qed.

(* ===================================================================== *)
(** ** A call from its first effect to its result *)
(* ===================================================================== *)

Lemma run_command_exited env self cmd result :
  proc_run env cmd = inr result →
  _run_command env self cmd
  = ([EvRun cmd; EvPrint (report_line result)], report_outcome result).
Proof.
  intros Hrun. rewrite (run_command_completed _ _ _ _ Hrun).
  unfold report_line, report_outcome, failed.
  destruct (bool_decide (returncode result = 0%Z)); simpl; [|reflexivity].
  destruct (Str.contains "ERROR" (stderr result)); reflexivity.
Qed.

Lemma run_command_raised env self cmd e :
  proc_run env cmd = inl e →
  not_called_process_error e →
  _run_command env self cmd = ([EvRun cmd], inl e).
Proof.
  intros Hrun Hne. unfold _run_command, subprocess_run. rewrite Hrun.
  destruct e; solve [reflexivity | destruct Hne].
Qed.

Lemma mkdir_then env {A} d (k : M A) :
  (mkdir env d ;;; k)
  = match fs_mkdir env d with
    | Some e => ([EvMkdir d], inl e)
    | None => (EvMkdir d :: trace k, outcome k)
    end.
Proof.
  unfold mkdir. destruct (fs_mkdir env d) as [e|]; [reflexivity|].
  destruct k as [t r]. reflexivity.
Qed.

Lemma compress_validated_words env self i o r ll pin pout pref d :
  validated env i o r pin pout pref d →
  compress env self i o r ll
  = (mkdir env d ;;; _run_command env self (compress_words self d pin pout ll pref)).
Proof. apply compress_validated. Qed.

Lemma decompress_validated_words env self i o r pin pout pref d :
  validated env i o r pin pout pref d →
  decompress env self i o r
  = (mkdir env d ;;; _run_command env self (decompress_words self d pin pout pref)).
Proof. apply decompress_validated. Qed.

(** A validated [compress] whose directory can be made and whose process
    exits does three things in this order: it makes the mounted directory,
    runs the one command, and prints one line.  It returns the captured
    output, or raises [RuntimeError] with the captured error stream when
    the exit status is not zero or the error stream contains ["ERROR"]. *)
Theorem compress_end_to_end env self i o r ll pin pout pref d result :
  validated env i o r pin pout pref d →
  fs_mkdir env d = None →
  proc_run env (compress_words self d pin pout ll pref) = inr result →
  compress env self i o r ll
  = ([EvMkdir d;
      EvRun (compress_words self d pin pout ll pref);
      EvPrint (if failed result
               then "[Genie Docker] Error: " +:+ stderr result
               else "[Genie Docker] Output: " +:+ stdout result)],
     if failed result
     then inl (RuntimeError ("Genie Docker failed:" +:+ Str.nl +:+ stderr result))
     else inr (stdout result)).
Proof.
  intros Hv Hmk Hrun.
  rewrite (compress_validated_words _ _ _ _ _ ll _ _ _ _ Hv), mkdir_then, Hmk.
  now rewrite (run_command_exited _ _ _ _ Hrun).
Qed.

(** The same for [decompress], with its own command. *)
Theorem decompress_end_to_end env self i o r pin pout pref d result :
  validated env i o r pin pout pref d →
  fs_mkdir env d = None →
  proc_run env (decompress_words self d pin pout pref) = inr result →
  decompress env self i o r
  = ([EvMkdir d;
      EvRun (decompress_words self d pin pout pref);
      EvPrint (if failed result
               then "[Genie Docker] Error: " +:+ stderr result
               else "[Genie Docker] Output: " +:+ stdout result)],
     if failed result
     then inl (RuntimeError ("Genie Docker failed:" +:+ Str.nl +:+ stderr result))
     else inr (stdout result)).
Proof.
  intros Hv Hmk Hrun.
  rewrite (decompress_validated_words _ _ _ _ _ _ _ _ _ Hv), mkdir_then, Hmk.
  now rewrite (run_command_exited _ _ _ _ Hrun).
Qed.

(** When the output directory cannot be made, the exception of [mkdir]
    leaves the call as it is and no process is started. *)
Theorem mkdir_error_stops_the_call env self i o r ll pin pout pref d e :
  validated env i o r pin pout pref d →
  fs_mkdir env d = Some e →
  compress env self i o r ll = ([EvMkdir d], inl e)
  ∧ decompress env self i o r = ([EvMkdir d], inl e).
Proof.
  intros Hv Hmk.
  rewrite (compress_validated_words _ _ _ _ _ ll _ _ _ _ Hv),
    (decompress_validated_words _ _ _ _ _ _ _ _ _ Hv), !mkdir_then, Hmk.
  split; reflexivity.
Qed.

(** When the process cannot be started (no [docker] on the machine, say),
    the exception of [subprocess.run] leaves [_run_command] and [compress]
    as it is: it is not turned into a [RuntimeError], and nothing is
    printed. *)
Theorem start_error_is_not_wrapped env self i o r ll pin pout pref d e :
  validated env i o r pin pout pref d →
  fs_mkdir env d = None →
  proc_run env (compress_words self d pin pout ll pref) = inl e →
  not_called_process_error e →
  _run_command env self (compress_words self d pin pout ll pref)
  = ([EvRun (compress_words self d pin pout ll pref)], inl e)
  ∧ compress env self i o r ll
    = ([EvMkdir d; EvRun (compress_words self d pin pout ll pref)], inl e).
Proof.
  intros Hv Hmk Hrun Hne.
  pose proof (run_command_raised _ self _ _ Hrun Hne) as Hr.
  split; [exact Hr|].
  rewrite (compress_validated_words _ _ _ _ _ ll _ _ _ _ Hv), mkdir_then, Hmk.
  now rewrite Hr.
Qed.


Lemma run_command_trace_shape env self cmd :
  trace (_run_command env self cmd) = [EvRun cmd]
  ∨ ∃ line, trace (_run_command env self cmd) = [EvRun cmd; EvPrint line].
Proof.
  destruct (proc_run env cmd) as [e|result] eqn:Hrun.
  - rewrite (run_command_not_started _ _ _ _ Hrun). destruct e; eauto.
  - rewrite (run_command_exited _ _ _ _ Hrun). eauto.
Qed.

Lemma mkdir_then_run_shape env self d cmd :
  let t := trace (mkdir env d ;;; _run_command env self cmd) in
  t = [EvMkdir d] ∨ t = [EvMkdir d; EvRun cmd]
  ∨ ∃ line, t = [EvMkdir d; EvRun cmd; EvPrint line].
Proof.
  intros t. subst t. rewrite mkdir_then.
  destruct (fs_mkdir env d); [now left|]. simpl. right.
  destruct (run_command_trace_shape env self cmd) as [-> | [line ->]]; eauto.
Qed.

(** Whatever the arguments and the environment, a call of [compress] or
    [decompress] makes at most one directory, starts at most one process
    and prints at most one line, in this order; and no process is started
    before the directory was made. *)
Theorem effects_in_order env self i o r ll :
  (trace (compress env self i o r ll) = []
   ∨ ∃ d cmd, trace (compress env self i o r ll) = [EvMkdir d]
              ∨ trace (compress env self i o r ll) = [EvMkdir d; EvRun cmd]
              ∨ ∃ line, trace (compress env self i o r ll)
                        = [EvMkdir d; EvRun cmd; EvPrint line])
  ∧ (trace (decompress env self i o r) = []
     ∨ ∃ d cmd, trace (decompress env self i o r) = [EvMkdir d]
                ∨ trace (decompress env self i o r) = [EvMkdir d; EvRun cmd]
                ∨ ∃ line, trace (decompress env self i o r)
                          = [EvMkdir d; EvRun cmd; EvPrint line]).
Proof.
  destruct (call_cases env self i o r)
    as [(pin & pout & pref & d & Hv) | [Hc [e He]]].
  - rewrite (compress_validated_words _ _ _ _ _ ll _ _ _ _ Hv),
      (decompress_validated_words _ _ _ _ _ _ _ _ _ Hv).
    split; right; exists d; eexists; apply mkdir_then_run_shape.
  - destruct (Hc ll) as [e' ->]. rewrite He. split; now left.
Qed.

(** A call has an effect exactly when it passed validation: input and
    output are non-empty, every provided path resolves, and the resolved
    paths lie in one directory.  Every other call raises and has done
    nothing. *)
Theorem effects_only_after_validation env self i o r ll :
  (trace (compress env self i o r ll) ≠ []
   ↔ ∃ pin pout pref d, validated env i o r pin pout pref d)
  ∧ (trace (decompress env self i o r) ≠ []
     ↔ ∃ pin pout pref d, validated env i o r pin pout pref d)
  ∧ ((¬ ∃ pin pout pref d, validated env i o r pin pout pref d) →
     (∃ e, compress env self i o r ll = ([], inl e))
     ∧ (∃ e, decompress env self i o r = ([], inl e))).
Proof.
  destruct (call_cases env self i o r)
    as [(pin & pout & pref & d & Hv) | [Hc [e He]]].
  - assert (∃ pin pout pref d, validated env i o r pin pout pref d) as Hex
      by eauto 10.
    rewrite (compress_validated_words _ _ _ _ _ ll _ _ _ _ Hv),
      (decompress_validated_words _ _ _ _ _ _ _ _ _ Hv), !mkdir_then.
    split; [|split].
    + split; [auto|]. intros _. destruct (fs_mkdir env d); discriminate.
    + split; [auto|]. intros _. destruct (fs_mkdir env d); discriminate.
    + intros Hno. destruct (Hno Hex).
  - destruct (Hc ll) as [e' He'].
    assert (¬ ∃ pin pout pref d, validated env i o r pin pout pref d) as Hno.
    { intros (pin & pout & pref & d & Hv).
      rewrite (compress_validated_words _ _ _ _ _ ll _ _ _ _ Hv), mkdir_then in He'.
      destruct (fs_mkdir env d); discriminate. }
    rewrite He', He. split; [|split].
    + split; [intros H; now destruct H | intros H; destruct (Hno H)].
    + split; [intros H; now destruct H | intros H; destruct (Hno H)].
    + intros _. split; eexists; reflexivity.
Qed.

(** An empty string as input or as output is dropped from the resolved
    paths like a missing reference.  When what is left passes the directory
    check, the call runs off the end of the list: it raises [IndexError]
    and has done nothing. *)
Theorem empty_path_index_error env self i o r ll ps :
  i = "" ∨ o = "" →
  resolved_forms env (provided i o r) ps →
  share_one_parent ps →
  compress env self i o r ll = ([], inl (IndexError "list index out of range"))
  ∧ decompress env self i o r = ([], inl (IndexError "list index out of range")).
Proof.
  intros Hempty Hps [d Hd].
  unfold compress, decompress.
  rewrite (resolve_paths_ok _ self _ _ _ _ _ Hps Hd), !bind_ret_l.
  unfold provided, resolved_forms in Hps.
  destruct Hempty as [-> | ->]; simpl in Hps.
  - destruct (Str.truthy o) eqn:Ho, r as [s|]; simpl in Hps;
      try destruct (Str.truthy s) eqn:Hs;
      repeat match goal with
             | H : Forall2 _ _ _ |- _ => inversion H; clear H; subst
             end;
      simpl py_truthy; rewrite ?Hs; split; reflexivity.
  - destruct (Str.truthy i) eqn:Hi, r as [s|]; simpl in Hps;
      try destruct (Str.truthy s) eqn:Hs;
      repeat match goal with
             | H : Forall2 _ _ _ |- _ => inversion H; clear H; subst
             end;
      simpl py_truthy; rewrite ?Hs; split; reflexivity.
Qed.

(* ===================================================================== *)
(** ** The two commands side by side *)
(* ===================================================================== *)

Lemma validated_unique env i o r pin pout pref d pin' pout' pref' d' :
  validated env i o r pin pout pref d →
  validated env i o r pin' pout' pref' d' →
  pin = pin' ∧ pout = pout' ∧ pref = pref' ∧ d = d'.
Proof.
  intros ((_ & Hi) & (_ & Ho) & Hr & _ & Hd) ((_ & Hi') & (_ & Ho') & Hr' & _ & Hd').
  assert (pin = pin') as <- by congruence.
  assert (pout = pout') as <- by congruence.
  assert (d = d') as <-.
  { rewrite <- (Hd pin), <- (Hd' pin) by now left. reflexivity. }
  repeat split.
  destruct pref as [pr|], pref' as [pr'|]; simpl in Hr, Hr'.
  - destruct Hr as (s & -> & _ & Hs), Hr' as (s' & Heq & _ & Hs').
    injection Heq as <-. congruence.
  - destruct Hr as (s & -> & Hne & _), Hr' as [Heq | Heq]; congruence.
  - destruct Hr' as (s & -> & Hne & _), Hr as [Heq | Heq]; congruence.
  - reflexivity.
Qed.

(** The command of [decompress] is the command of [compress] on the same
    arguments without ["--qv"], ["none"] and ["--low-latency"]: the first
    eleven words and everything after ["-f"] and the latency flag are the
    same, and [decompress] never passes ["--low-latency"] to the tool. *)
Theorem decompress_mirrors_compress env self i o r ll cc cd :
  In (EvRun cc) (trace (compress env self i o r ll)) →
  In (EvRun cd) (trace (decompress env self i o r)) →
  cc = firstn 11 cd ++ ["--qv"; "none"; "-f"]
       ++ (if ll then ["--low-latency"] else []) ++ skipn 12 cd
  ∧ ¬ In "--low-latency" (skipn 6 cd).
Proof.
  intros (pin & pout & pref & d & Hv & ->)%compress_command
         (pin' & pout' & pref' & d' & Hv' & ->)%decompress_command.
  destruct (validated_unique _ _ _ _ _ _ _ _ _ _ _ _ Hv Hv') as (<- & <- & <- & <-).
  split; [reflexivity|]. clear. word_cases.
Qed.

(** Under the bind mount, [/work/<name>] is the file the caller meant:
    each resolved path of a command that is run is the mounted directory
    followed by its own name (or is the root, whose name is empty). *)
Theorem mounted_names_reach_the_files env self i o r ll cmd :
  In (EvRun cmd) (trace (compress env self i o r ll))
  ∨ In (EvRun cmd) (trace (decompress env self i o r)) →
  ∃ pin pout pref d,
    fs_resolve env i = inr pin
    ∧ fs_resolve env o = inr pout
    ∧ reference_form env r pref
    ∧ nth_error cmd 4 = Some (PurePath.str d +:+ ":/work")
    ∧ nth_error cmd 8 = Some ("/work/" +:+ PurePath.name pin)
    ∧ nth_error cmd 10 = Some ("/work/" +:+ PurePath.name pout)
    ∧ ∀ p, In p (pin :: pout :: option_list pref) →
           p = [] ∨ p = d ++ [PurePath.name p].
Proof.
  intros [(pin & pout & pref & d & Hv & ->)%compress_command
         |(pin & pout & pref & d & Hv & ->)%decompress_command];
    destruct Hv as ((_ & Hi) & (_ & Ho) & Hr & _ & Hd);
    exists pin, pout, pref, d;
    (do 6 (split; [assumption || reflexivity|]));
    intros p Hp; rewrite <- (Hd p Hp);
    (destruct p as [|x p]; [now left|right]);
    unfold PurePath.parent, PurePath.name;
    apply app_removelast_last; discriminate.
Qed.

(** Nothing keeps input and output apart: the same non-empty path as both
    passes validation, and the tool is told to read and, with ["-f"], to
    overwrite the same file. *)
Theorem same_file_is_accepted env self p pin (ll : bool) :
  p ≠ "" →
  fs_resolve env p = inr pin →
  fs_mkdir env (PurePath.parent pin) = None →
  In (EvRun (["docker"; "run"; "--rm";
              "-v"; PurePath.str (PurePath.parent pin) +:+ ":/work";
              image self;
              "run";
              "-i"; "/work/" +:+ PurePath.name pin;
              "-o"; "/work/" +:+ PurePath.name pin;
              "--qv"; "none"; "-f"]
             ++ (if ll then ["--low-latency"] else [])))
     (trace (compress env self p p None ll)).
Proof.
  intros Hne Hp Hmk.
  assert (validated env p p None pin pin None (PurePath.parent pin)) as Hv.
  { split; [split; assumption|]. split; [split; assumption|].
    split; [now left|]. split; [discriminate|].
    intros q [<- | [<- | []]]; reflexivity. }
  rewrite (compress_validated_words _ _ _ _ _ ll _ _ _ _ Hv).
  replace (_ ++ (if ll then _ else _))
    with (compress_words self (PurePath.parent pin) pin pin ll None)
    by (destruct ll; reflexivity).
  now apply trace_mkdir_then_run_ok.
Qed.

(* ===================================================================== *)
(** ** [version] *)
(* ===================================================================== *)

Lemma is_white_In w : Str.is_white w = true ↔ In w Str.white_space.
Proof.
  unfold Str.is_white. rewrite existsb_exists. split.
  - intros (x & Hx & Heq). apply String.eqb_eq in Heq. now subst.
  - intros H. exists w. split; [exact H | apply String.eqb_refl].
Qed.

Lemma starts_white_spec w t :
  In w Str.white_space → Str.starts_white (w +:+ t) = true.
Proof.
  unfold Str.white_space. simpl.
  intros H.
  repeat (destruct H as [<- | H];
          [rewrite ?append_cons, ?append_nil; reflexivity|]).
  destruct H.
Qed.

Lemma white_not_empty w t : In w Str.white_space → w +:+ t ≠ "".
Proof.
  intros H Heq. pose proof (starts_white_spec w t H) as Hs.
  rewrite Heq in Hs. discriminate Hs.
Qed.

Lemma not_starts_white s w t :
  Str.starts_white s = false → In w Str.white_space → s ≠ w +:+ t.
Proof.
  intros Hs Hw ->. rewrite (starts_white_spec _ _ Hw) in Hs. discriminate Hs.
Qed.

(** [lstrip] takes white space off the front, all of it. *)
Lemma lstrip_bounded (n : nat) :
  ∀ s, (String.length s ≤ n)%nat →
       (∃ a, s = a +:+ Str.lstrip s ∧ Str.all_white a)
       ∧ Str.starts_white (Str.lstrip s) = false.
Proof.
  induction n as [|n IH]; intros s Hlen.
  - destruct s; [|simpl in Hlen; lia].
    split; [exists ""; split; [reflexivity | constructor] | reflexivity].
  - destruct s as [|c1 s1].
    { split; [exists ""; split; [reflexivity | constructor] | reflexivity]. }
    simpl in Hlen. simpl Str.lstrip.
    destruct (Str.is_white (String c1 "")) eqn:H1.
    { destruct (IH s1 ltac:(lia)) as [(a & Ha & Hw) Hs]. split; [|exact Hs].
      exists (String c1 "" +:+ a). split.
      - rewrite append_cons, append_nil, append_cons. now f_equal.
      - constructor; [now apply is_white_In | exact Hw]. }
    destruct s1 as [|c2 s2].
    { split; [exists ""; split; [reflexivity | constructor]|].
      simpl. now rewrite H1. }
    simpl in Hlen.
    destruct (Str.is_white (String c1 (String c2 ""))) eqn:H2.
    { destruct (IH s2 ltac:(lia)) as [(a & Ha & Hw) Hs]. split; [|exact Hs].
      exists (String c1 (String c2 "") +:+ a). split.
      - rewrite !append_cons, append_nil. now do 2 f_equal.
      - constructor; [now apply is_white_In | exact Hw]. }
    destruct s2 as [|c3 s3].
    { split; [exists ""; split; [reflexivity | constructor]|].
      simpl. now rewrite H1, H2. }
    simpl in Hlen.
    destruct (Str.is_white (String c1 (String c2 (String c3 "")))) eqn:H3.
    { destruct (IH s3 ltac:(lia)) as [(a & Ha & Hw) Hs]. split; [|exact Hs].
      exists (String c1 (String c2 (String c3 "")) +:+ a). split.
      - rewrite !append_cons, append_nil. now do 3 f_equal.
      - constructor; [now apply is_white_In | exact Hw]. }
    split; [exists ""; split; [reflexivity | constructor]|].
    simpl. now rewrite H1, H2, H3.
Qed.

Lemma lstrip_spec s :
  (∃ a, s = a +:+ Str.lstrip s ∧ Str.all_white a)
  ∧ ∀ w t, In w Str.white_space → Str.lstrip s ≠ w +:+ t.
Proof.
  destruct (lstrip_bounded (String.length s) s (le_n _)) as [Ha Hs].
  split; [exact Ha|]. intros w t. now apply not_starts_white.
Qed.

(** [rstrip] takes white space off the end, all of it. *)
Lemma rstrip_spec s : ∃ b, s = Str.rstrip s +:+ b ∧ Str.all_white b.
Proof.
  induction s as [|c s (b & Hb & Hw)]; simpl.
  - exists "". split; [reflexivity | constructor].
  - destruct (Str.is_white (String c (Str.rstrip s))) eqn:Hc.
    + exists (String c (Str.rstrip s) +:+ b). split.
      * rewrite append_nil, append_cons. now f_equal.
      * constructor; [now apply is_white_In | exact Hw].
    + exists b. split; [|exact Hw]. rewrite append_cons. now f_equal.
Qed.

Lemma rstrip_no_suffix s w u :
  In w Str.white_space → Str.rstrip s ≠ u +:+ w.
Proof.
  intros Hw. revert u. induction s as [|c s IH]; intros u; simpl.
  - destruct u as [|x u]; [|discriminate].
    rewrite append_nil. intros H. symmetry in H.
    apply (white_not_empty w "" Hw). now rewrite append_empty_r.
  - destruct (Str.is_white (String c (Str.rstrip s))) eqn:Hc.
    + destruct u as [|x u]; [|discriminate].
      rewrite append_nil. intros H. symmetry in H.
      apply (white_not_empty w "" Hw). now rewrite append_empty_r.
    + destruct u as [|x u].
      * rewrite append_nil. intros H. rewrite H in Hc.
        apply is_white_In in Hw. congruence.
      * rewrite append_cons. intros H. injection H as _ H. exact (IH _ H).
Qed.

(** [strip] takes the white space off both ends and nothing else. *)
Lemma strip_spec s :
  ∃ a b, s = a +:+ Str.strip s +:+ b
         ∧ Str.all_white a ∧ Str.all_white b
         ∧ (∀ w t, In w Str.white_space → Str.strip s ≠ w +:+ t)
         ∧ (∀ w u, In w Str.white_space → Str.strip s ≠ u +:+ w).
Proof.
  destruct (lstrip_spec s) as [(a & Ha & Hsa) Hfront].
  destruct (rstrip_spec (Str.lstrip s)) as (b & Hb & Hsb).
  exists a, b. unfold Str.strip. rewrite <- Hb.
  repeat split; try assumption.
  - intros w t Hw Heq. apply (Hfront w (t +:+ b) Hw).
    now rewrite Hb at 1; rewrite Heq, append_assoc.
  - intros w u Hw. now apply rstrip_no_suffix.
Qed.

(** [version] runs [docker run --rm <image> help] and nothing else: it
    resolves no path, makes no directory and mounts nothing, whatever the
    environment. *)
Theorem version_runs_help_only env self :
  trace (version env self) = [EvRun ["docker"; "run"; "--rm"; image self; "help"]]
  ∨ ∃ line, trace (version env self)
            = [EvRun ["docker"; "run"; "--rm"; image self; "help"]; EvPrint line].
Proof.
  unfold version. rewrite trace_bind.
  destruct (run_command_trace_shape env self
              ["docker"; "run"; "--rm"; image self; "help"]) as [H | [line H]];
    rewrite H; [left | right; exists line];
    destruct (outcome _); simpl; reflexivity.
Qed.

(** When the help process exits, [version] fails by the same policy as the
    other commands, and otherwise returns the captured output with the
    white space at both ends removed and nothing else changed: what is
    returned neither begins nor ends with a white-space character, and
    what was cut off is white space only. *)
Theorem version_returns_trimmed_help env self result :
  proc_run env ["docker"; "run"; "--rm"; image self; "help"] = inr result →
  (failed result = true →
     outcome (version env self)
     = inl (RuntimeError ("Genie Docker failed:" +:+ Str.nl +:+ stderr result)))
  ∧ (failed result = false →
     ∃ s a b,
       outcome (version env self) = inr s
       ∧ stdout result = a +:+ s +:+ b
       ∧ Str.all_white a ∧ Str.all_white b
       ∧ (∀ w t, In w Str.white_space → s ≠ w +:+ t)
       ∧ (∀ w u, In w Str.white_space → s ≠ u +:+ w)).
Proof.
  intros Hrun. unfold version.
  rewrite (run_command_exited _ _ _ _ Hrun). unfold report_outcome.
  split; intros Hf; rewrite Hf.
  - reflexivity.
  - destruct (strip_spec (stdout result)) as (a & b & H).
    exists (Str.strip (stdout result)), a, b. split; [reflexivity | exact H].
Qed.

(* ===================================================================== *)
(** ** The mode and the two backends *)
(* ===================================================================== *)

(** In native mode the public functions hand their arguments to the
    backend as they are, in one call, with [low_latency] false when it was
    left out; the result, text or exception, is the backend's. *)
Theorem native_mode_passes_arguments env reply i o r ll :
  api.compress env (ret (Sample.recording_backend reply)) i o r (Passed "native") ll
  = ([EvBackend (CallCompress i o r (kwarg_value false ll))],
     reply (CallCompress i o r (kwarg_value false ll)))
  ∧ api.decompress env (ret (Sample.recording_backend reply)) i o r (Passed "native")
    = ([EvBackend (CallDecompress i o r)], reply (CallDecompress i o r)).
Proof.
  unfold api.compress, api.decompress, api._get_runner. simpl.
  split; destruct (reply _); reflexivity.
Qed.

Lemma public_docker_mode env native i o r mode ll :
  mode = Omitted ∨ mode = Passed "docker" →
  api.compress env native i o r mode ll
  = compress env {| image := "muefab/genie:latest" |} i o r (kwarg_value false ll)
  ∧ api.decompress env native i o r mode
    = decompress env {| image := "muefab/genie:latest" |} i o r.
Proof.
  intros [-> | ->]; unfold api.compress, api.decompress; simpl kwarg_value;
    change (api._get_runner env native "docker")
      with (ret (as_runner env (__init__ Omitted)));
    change (api._get_runner env native api.DEFAULT_MODE)
      with (ret (as_runner env (__init__ Omitted)));
    rewrite !bind_ret_l; split; reflexivity.
Qed.

(** Through the public functions the image cannot be chosen: in docker
    mode, asked for or by default, every command that is run names the
    image [muefab/genie:latest] after its one bind mount. *)
Theorem public_functions_use_default_image env native i o r mode ll cmd :
  mode = Omitted ∨ mode = Passed "docker" →
  In (EvRun cmd) (trace (api.compress env native i o r mode ll))
  ∨ In (EvRun cmd) (trace (api.decompress env native i o r mode)) →
  firstn 4 cmd = ["docker"; "run"; "--rm"; "-v"]
  ∧ nth_error cmd 5 = Some "muefab/genie:latest"
  ∧ nth_error cmd 6 = Some "run".
Proof.
  intros Hmode.
  destruct (public_docker_mode env native i o r mode ll Hmode) as [-> ->].
  intros [(pin & pout & pref & d & _ & ->)%compress_command
         |(pin & pout & pref & d & _ & ->)%decompress_command];
    repeat split; reflexivity.
Qed.

(** The path-layout error reaches the caller of the public functions as it
    is, in docker mode and by default, and nothing has been done by then. *)
Theorem public_layout_error env native i o r mode ll ps :
  mode = Omitted ∨ mode = Passed "docker" →
  resolved_forms env (provided i o r) ps →
  ¬ share_one_parent ps →
  api.compress env native i o r mode ll
  = ([], inl (ValueError
                "All files must be in the same directory for Docker binding."))
  ∧ api.decompress env native i o r mode
    = ([], inl (ValueError
                  "All files must be in the same directory for Docker binding.")).
Proof.
  intros Hmode Hps Hno.
  destruct (public_docker_mode env native i o r mode ll Hmode) as [-> ->].
  unfold compress, decompress.
  rewrite (resolve_paths_layout _ _ _ _ _ _ Hps Hno). split; reflexivity.
Qed.

(* ===================================================================== *)
(** ** These properties at concrete calls *)
(* ===================================================================== *)

Lemma resolve_paths_returns_witness :
  _resolve_paths quiet_env runner [Some "a/in.fastq"; None; Some ""; Some "a/out.mgb"]
  = ([], inr ([["home"; "user"; "a"; "in.fastq"]; ["home"; "user"; "a"; "out.mgb"]],
              ["home"; "user"; "a"])).
Proof.
  apply (proj2 (resolve_paths_returns quiet_env runner
                  [Some "a/in.fastq"; None; Some ""; Some "a/out.mgb"] _ _)).
  split.
  - repeat constructor.
  - split; [discriminate|].
    intros q Hq; simpl in Hq.
    repeat (destruct Hq as [<- | Hq]; [reflexivity|]); destruct Hq.
Defined.

Lemma resolve_paths_nothing_provided_witness :
  _resolve_paths quiet_env runner [None; Some ""]
  = ([], inl (ValueError
                "All files must be in the same directory for Docker binding.")).
Proof.
  apply (resolve_paths_nothing_provided quiet_env runner [None; Some ""]).
  constructor; [now left|]. constructor; [now right|]. constructor.
Defined.

Lemma resolve_error_propagates_witness :
  compress loop_env runner "a/in.fastq" "loop/out.mgb" None false
  = ([], inl (OSError "[Errno 40] Too many levels of symbolic links")).
Proof.
  apply (resolve_error_propagates loop_env runner "a/in.fastq" "loop/out.mgb" None
           false ["a/in.fastq"] "loop/out.mgb" []
           [["home"; "user"; "a"; "in.fastq"]]).
  - reflexivity.
  - repeat constructor.
  - reflexivity.
Defined.

Lemma compress_end_to_end_witness :
  compress quiet_env runner "a/in.fastq" "a/out.mgb" (Some "a/ref.fasta") true
  = ([EvMkdir ["home"; "user"; "a"];
      EvRun ["docker"; "run"; "--rm"; "-v"; "/home/user/a:/work";
             "muefab/genie:latest"; "run"; "-i"; "/work/in.fastq";
             "-o"; "/work/out.mgb"; "--qv"; "none"; "-f"; "--low-latency";
             "-r"; "/work/ref.fasta"];
      EvPrint "[Genie Docker] Output: done"],
     inr "done").
Proof.
  apply (compress_end_to_end quiet_env runner "a/in.fastq" "a/out.mgb"
           (Some "a/ref.fasta") true
           ["home"; "user"; "a"; "in.fastq"] ["home"; "user"; "a"; "out.mgb"]
           (Some ["home"; "user"; "a"; "ref.fasta"]) ["home"; "user"; "a"] quiet).
  - sample_validated.
  - reflexivity.
  - reflexivity.
Defined.

Lemma decompress_end_to_end_witness :
  decompress (env home failed_quietly) runner "a/in.fastq" "a/out.mgb" None
  = ([EvMkdir ["home"; "user"; "a"];
      EvRun ["docker"; "run"; "--rm"; "-v"; "/home/user/a:/work";
             "muefab/genie:latest"; "run"; "-i"; "/work/in.fastq";
             "-o"; "/work/out.mgb"; "-f"];
      EvPrint "[Genie Docker] Error: ERROR: Input file does not exist"],
     inl (RuntimeError ("Genie Docker failed:" +:+ Str.nl
                        +:+ "ERROR: Input file does not exist"))).
Proof.
  apply (decompress_end_to_end (env home failed_quietly) runner
           "a/in.fastq" "a/out.mgb" None
           ["home"; "user"; "a"; "in.fastq"] ["home"; "user"; "a"; "out.mgb"]
           None ["home"; "user"; "a"] failed_quietly).
  - sample_validated.
  - reflexivity.
  - reflexivity.
Defined.

Lemma mkdir_error_stops_the_call_witness :
  compress read_only_env runner "a/in.fastq" "a/out.mgb" None false
  = ([EvMkdir ["home"; "user"; "a"]],
     inl (OSError "[Errno 30] Read-only file system")).
Proof.
  apply (mkdir_error_stops_the_call read_only_env runner "a/in.fastq" "a/out.mgb"
           None false
           ["home"; "user"; "a"; "in.fastq"] ["home"; "user"; "a"; "out.mgb"]
           None ["home"; "user"; "a"]).
  - sample_validated.
  - reflexivity.
Defined.

Lemma start_error_is_not_wrapped_witness :
  compress no_docker_env runner "a/in.fastq" "a/out.mgb" None false
  = ([EvMkdir ["home"; "user"; "a"];
      EvRun ["docker"; "run"; "--rm"; "-v"; "/home/user/a:/work";
             "muefab/genie:latest"; "run"; "-i"; "/work/in.fastq";
             "-o"; "/work/out.mgb"; "--qv"; "none"; "-f"]],
     inl (OSError "[Errno 2] No such file or directory: 'docker'")).
Proof.
  apply (start_error_is_not_wrapped no_docker_env runner "a/in.fastq" "a/out.mgb"
           None false
           ["home"; "user"; "a"; "in.fastq"] ["home"; "user"; "a"; "out.mgb"]
           None ["home"; "user"; "a"]).
  - sample_validated.
  - reflexivity.
  - reflexivity.
  - exact I.
Defined.

Lemma empty_path_index_error_witness :
  compress quiet_env runner "" "a/out.mgb" (Some "a/ref.fasta") false
  = ([], inl (IndexError "list index out of range")).
Proof.
  apply (empty_path_index_error quiet_env runner "" "a/out.mgb"
           (Some "a/ref.fasta") false
           [["home"; "user"; "a"; "out.mgb"]; ["home"; "user"; "a"; "ref.fasta"]]).
  - now left.
  - repeat constructor.
  - exists ["home"; "user"; "a"]. split; [discriminate|].
    intros q Hq; simpl in Hq.
    repeat (destruct Hq as [<- | Hq]; [reflexivity|]); destruct Hq.
Defined.

Lemma decompress_mirrors_compress_witness :
  ["docker"; "run"; "--rm"; "-v"; "/home/user/a:/work"; "muefab/genie:latest";
   "run"; "-i"; "/work/x.mgb"; "-o"; "/work/y.mgb"; "--qv"; "none"; "-f";
   "--low-latency"; "-r"; "/work/ref.fasta"]
  = firstn 11 ["docker"; "run"; "--rm"; "-v"; "/home/user/a:/work";
               "muefab/genie:latest"; "run"; "-i"; "/work/x.mgb";
               "-o"; "/work/y.mgb"; "-f"; "-r"; "/work/ref.fasta"]
    ++ ["--qv"; "none"; "-f"] ++ ["--low-latency"]
    ++ skipn 12 ["docker"; "run"; "--rm"; "-v"; "/home/user/a:/work";
                 "muefab/genie:latest"; "run"; "-i"; "/work/x.mgb";
                 "-o"; "/work/y.mgb"; "-f"; "-r"; "/work/ref.fasta"].
Proof.
  apply (decompress_mirrors_compress quiet_env runner "a/x.mgb" "a/y.mgb"
           (Some "a/ref.fasta") true).
  - vm_compute. right. left. reflexivity.
  - vm_compute. right. left. reflexivity.
Defined.

Lemma mounted_names_reach_the_files_witness :
  ∃ pin pout pref d,
    fs_resolve quiet_env "a/in.fastq" = inr pin
    ∧ fs_resolve quiet_env "a/out.mgb" = inr pout
    ∧ reference_form quiet_env None pref
    ∧ nth_error
        ["docker"; "run"; "--rm"; "-v"; "/home/user/a:/work"; "muefab/genie:latest";
         "run"; "-i"; "/work/in.fastq"; "-o"; "/work/out.mgb"; "-f"] 4
      = Some (PurePath.str d +:+ ":/work")
    ∧ nth_error
        ["docker"; "run"; "--rm"; "-v"; "/home/user/a:/work"; "muefab/genie:latest";
         "run"; "-i"; "/work/in.fastq"; "-o"; "/work/out.mgb"; "-f"] 8
      = Some ("/work/" +:+ PurePath.name pin)
    ∧ nth_error
        ["docker"; "run"; "--rm"; "-v"; "/home/user/a:/work"; "muefab/genie:latest";
         "run"; "-i"; "/work/in.fastq"; "-o"; "/work/out.mgb"; "-f"] 10
      = Some ("/work/" +:+ PurePath.name pout)
    ∧ ∀ p, In p (pin :: pout :: option_list pref) →
           p = [] ∨ p = d ++ [PurePath.name p].
Proof.
  apply (mounted_names_reach_the_files quiet_env runner "a/in.fastq" "a/out.mgb"
           None false).
  right. vm_compute. right. left. reflexivity.
Defined.

Lemma same_file_is_accepted_witness :
  In (EvRun ["docker"; "run"; "--rm"; "-v"; "/home/user/a:/work";
             "muefab/genie:latest"; "run"; "-i"; "/work/reads.fastq";
             "-o"; "/work/reads.fastq"; "--qv"; "none"; "-f"])
     (trace (compress quiet_env runner "a/reads.fastq" "a/reads.fastq" None false)).
Proof.
  apply (same_file_is_accepted quiet_env runner "a/reads.fastq"
           ["home"; "user"; "a"; "reads.fastq"] false).
  - discriminate.
  - reflexivity.
  - reflexivity.
Defined.

Lemma version_returns_trimmed_help_witness :
  ∃ s a b,
    outcome (version (env home helped) runner) = inr s
    ∧ stdout helped = a +:+ s +:+ b
    ∧ Str.all_white a ∧ Str.all_white b
    ∧ (∀ w t, In w Str.white_space → s ≠ w +:+ t)
    ∧ (∀ w u, In w Str.white_space → s ≠ u +:+ w).
Proof.
  apply (proj2 (version_returns_trimmed_help (env home helped) runner helped
                  eq_refl)).
  reflexivity.
Defined.

Lemma public_functions_use_default_image_witness :
  nth_error ["docker"; "run"; "--rm"; "-v"; "/home/user/a:/work";
             "muefab/genie:latest"; "run"; "-i"; "/work/in.fastq";
             "-o"; "/work/out.mgb"; "--qv"; "none"; "-f"] 5
  = Some "muefab/genie:latest".
Proof.
  apply (public_functions_use_default_image quiet_env native
           "a/in.fastq" "a/out.mgb" None Omitted Omitted).
  - now left.
  - left. vm_compute. right. left. reflexivity.
Defined.

Lemma public_layout_error_witness :
  api.compress quiet_env native "a/in.fastq" "b/out.mgb" None (Passed "docker") Omitted
  = ([], inl (ValueError
                "All files must be in the same directory for Docker binding.")).
Proof.
  apply (public_layout_error quiet_env native "a/in.fastq" "b/out.mgb" None
           (Passed "docker") Omitted
           [["home"; "user"; "a"; "in.fastq"]; ["home"; "user"; "b"; "out.mgb"]]).
  - now right.
  - repeat constructor.
  - intros (d & _ & H).
    pose proof (H _ (or_introl eq_refl)) as H1.
    pose proof (H _ (or_intror (or_introl eq_refl))) as H2.
    rewrite <- H2 in H1. discriminate H1.
Defined.
